(** * A WebSocket-to-TCP tunnelling gateway: model and verification

    Shallow embedding of [src/go/main.go].  The program accepts a
    WebSocket connection, reads a binary handshake frame (version,
    16-byte identifier, addon region, port, address), acknowledges it,
    dials the target and relays bytes in both directions.

    Conventions of the embedding:
    - a Go [[]byte] is a [list byte]; a Go [string] is a [string]
      (a sequence of 8-bit characters); [string(b)] is
      [string_of_list_byte];
    - a Go [int] is a [Z]; every [int] computed by the program stays
      below 1000, far from the 64-bit wrap-around, so no reduction is
      written on them; [uint8] and [uint16] results are reduced
      explicitly;
    - a run-time panic (slice bounds out of range) is the outcome
      [Panic]; a returned [error] is [Error e];
    - input and output are explicit: what the transports deliver is a
      list, what the program does to them is a trace of events, and
      whether a write or a dial succeeds is asked of an environment
      that sees the trace so far. *)

From Stdlib Require Import ZArith NArith List Bool Lia String Ascii.
From Stdlib Require Import Strings.Byte.
Import ListNotations.

Local Open Scope string_scope.
Local Open Scope list_scope.
Local Open Scope Z_scope.

(** String concatenation, Go's [+] on strings. *)
Infix "+++" := String.append (right associativity, at level 60).

(** ** Outcomes *)

(** The [error] values the program creates, one per [fmt.Errorf] call
    site text. *)
Inductive error : Type :=
| ErrMessageTooShort        (* "message too short" (lines 84 and 96) *)
| ErrInvalidUUID            (* "invalid UUID" *)
| ErrTooShortIPv4           (* "message too short for IPv4" *)
| ErrTooShortDomainLength   (* "message too short for domain length" *)
| ErrTooShortDomainName     (* "message too short for domain name" *)
| ErrTooShortIPv6           (* "message too short for IPv6" *)
| ErrUnknownAddressType     (* "unknown address type" *)
| ErrSendResponse           (* "failed to send response: ..." *)
| ErrConnectTarget          (* "failed to connect to target: ..." *)
| ErrWriteInitial           (* "failed to write initial data to target: ..." *)
| ErrWebSocketRead          (* "WebSocket read error: ..." *)
| ErrTCPWrite               (* "TCP write error: ..." *)
| ErrTCPRead                (* "TCP read error: ..." *)
| ErrWebSocketWrite.        (* "WebSocket write error: ..." *)

Definition error_text (e : error) : string :=
  match e with
  | ErrMessageTooShort => "message too short"
  | ErrInvalidUUID => "invalid UUID"
  | ErrTooShortIPv4 => "message too short for IPv4"
  | ErrTooShortDomainLength => "message too short for domain length"
  | ErrTooShortDomainName => "message too short for domain name"
  | ErrTooShortIPv6 => "message too short for IPv6"
  | ErrUnknownAddressType => "unknown address type"
  | ErrSendResponse => "failed to send response: "
  | ErrConnectTarget => "failed to connect to target: "
  | ErrWriteInitial => "failed to write initial data to target: "
  | ErrWebSocketRead => "WebSocket read error: "
  | ErrTCPWrite => "TCP write error: "
  | ErrTCPRead => "TCP read error: "
  | ErrWebSocketWrite => "WebSocket write error: "
  end.

Inductive result (A : Type) : Type :=
| Ok (a : A)
| Error (e : error)
| Panic.

Arguments Ok {A} a.
Arguments Error {A} e.
Arguments Panic {A}.

Definition bind {A B : Type} (r : result A) (k : A -> result B) : result B :=
  match r with
  | Ok a => k a
  | Error e => Error e
  | Panic => Panic
  end.

Declare Scope go_scope.
Delimit Scope go_scope with go.
Notation "x <- c ;; k" := (bind c (fun x => k))
  (at level 61, c at next level, right associativity) : go_scope.
Notation "' pat <- c ;; k" := (bind c (fun x => match x with pat => k end))
  (at level 61, pat pattern, c at next level, right associativity) : go_scope.

(** ** Bytes, slices and strings *)

Definition int (b : byte) : Z := Z.of_N (Byte.to_N b).

(** The conversion [uint8(z)]: reduction modulo 256. *)
Definition uint8 (z : Z) : byte :=
  match Byte.of_N (Z.to_N (z mod 256)) with
  | Some b => b
  | None => x00
  end.

Definition len {A : Type} (l : list A) : Z := Z.of_nat (List.length l).

(** [m[i]]: panics outside [0 <= i < len(m)]. *)
Definition index (m : list byte) (i : Z) : result byte :=
  if (0 <=? i) && (i <? len m)
  then Ok (nth (Z.to_nat i) m x00)
  else Panic.

(** [m[lo:hi]]: panics unless [0 <= lo <= hi <= len(m)]. *)
Definition slice (m : list byte) (lo hi : Z) : result (list byte) :=
  if (0 <=? lo) && (lo <=? hi) && (hi <=? len m)
  then Ok (firstn (Z.to_nat (hi - lo)) (skipn (Z.to_nat lo) m))
  else Panic.

(** [m[lo:]]. *)
Definition slice_from (m : list byte) (lo : Z) : result (list byte) :=
  slice m lo (len m).

Definition strlen (s : string) : Z := Z.of_nat (String.length s).

(** [s[lo:hi]] on a string: the same bounds rule as on a byte slice. *)
Definition str_slice (s : string) (lo hi : Z) : result string :=
  if (0 <=? lo) && (lo <=? hi) && (hi <=? strlen s)
  then Ok (substring (Z.to_nat lo) (Z.to_nat (hi - lo)) s)
  else Panic.

(** ** The parts of Go's standard library the program calls *)

Module strings.

(** [strings.ReplaceAll(s, "-", "")]: every hyphen is dropped. *)
Fixpoint ReplaceAll_hyphen (s : string) : string :=
  match s with
  | EmptyString => EmptyString
  | String c rest =>
      if (c =? "-")%char then ReplaceAll_hyphen rest
      else String c (ReplaceAll_hyphen rest)
  end.

End strings.

Module fmt.

(** Scanning with [fmt.Sscanf(input, "%02x", &b)], [b] a [byte].
    The verb [%02x] has width 2 and base 16.  [doScanf] skips leading
    space, then [scanUint] accepts at most two hexadecimal digits and
    needs at least one; the input after them is left unread and is
    not an error.  Runes are decoded from UTF-8; here every
    character at or above 0x80 counts as a rune that is neither a
    space nor a digit, which is what the decoder yields on the
    two-character inputs the program scans. *)

Definition isSpace (r : ascii) : bool :=
  let n := N_of_ascii r in
  (((9 <=? n) && (n <=? 13)) || (n =? 32))%N.

Definition peek (s : string) (ok : ascii) : bool :=
  match s with
  | String r _ => (r =? ok)%char
  | EmptyString => false
  end.

(** [ss.SkipSpace] with [nlIsSpace = false]: [None] is the scan
    error "unexpected newline". *)
Fixpoint SkipSpace (s : string) : option string :=
  match s with
  | EmptyString => Some EmptyString
  | String r rest =>
      if (r =? "013")%char && peek rest "010"%char then SkipSpace rest
      else if (r =? "010")%char then None
      else if isSpace r then SkipSpace rest
      else Some s
  end.

(** Value of a character of "0123456789aAbBcCdDeEfF". *)
Definition hexadecimalDigit (r : ascii) : option Z :=
  let n := Z.of_N (N_of_ascii r) in
  if (48 <=? n) && (n <=? 57) then Some (n - 48)
  else if (97 <=? n) && (n <=? 102) then Some (n - 87)
  else if (65 <=? n) && (n <=? 70) then Some (n - 55)
  else None.

(** [ss.scanNumber] under a width limit: the digits accepted, most
    significant first. *)
Fixpoint scanNumber (width : nat) (s : string) : list Z :=
  match width, s with
  | S w, String r rest =>
      match hexadecimalDigit r with
      | Some d => d :: scanNumber w rest
      | None => []
      end
  | _, _ => []
  end.

(** [strconv.ParseUint(tok, 16, 64)] on a token of digits. *)
Definition ParseUint16 (tok : list Z) : Z :=
  fold_left (fun acc d => 16 * acc + d) tok 0.

(** The scan as a whole: [Some v] when a value is stored in [b],
    [None] when the scan stops with an error and [b] is left alone. *)
Definition Sscanf_02x (input : string) : option Z :=
  match SkipSpace input with
  | None => None
  | Some s =>
      match scanNumber 2 s with
      | [] => None
      | tok =>
          let v := ParseUint16 tok in
          if v <=? 255 then Some v else None
      end
  end.

End fmt.

Module strconv.

(** Decimal digits of a non-negative number, as [%d] prints them. *)
Definition digit (d : Z) : ascii := ascii_of_N (Z.to_N (48 + d)).

Fixpoint Itoa_fuel (fuel : nat) (z : Z) (acc : string) : string :=
  match fuel with
  | O => acc
  | S f =>
      let acc' := String (digit (z mod 10)) acc in
      if z <? 10 then acc' else Itoa_fuel f (z / 10) acc'
  end.

(** Twenty digits cover every 64-bit value. *)
Definition Itoa (z : Z) : string := Itoa_fuel 20 z "".

End strconv.

Module binary.

(** [binary.BigEndian.Uint16(b)]:
    [uint16(b[1]) | uint16(b[0])<<8], after the bounds check
    [_ = b[1]]. *)
Definition BigEndian_Uint16 (b : list byte) : result Z :=
  match b with
  | b0 :: b1 :: _ =>
      Ok (Z.lor (int b1) (Z.shiftl (int b0) 8 mod 65536))
  | _ => Panic
  end.

(** [binary.BigEndian.PutUint16(b, v)] on a two-byte buffer:
    [b[0] = byte(v >> 8); b[1] = byte(v)]. *)
Definition BigEndian_PutUint16 (v : Z) : list byte :=
  [uint8 (Z.shiftr v 8); uint8 v].

End binary.

Module net.

Definition IPv4len : Z := 4.
Definition IPv6len : Z := 16.

Definition isZeros (p : list byte) : bool := forallb (Byte.eqb x00) p.

(** [IP.To4]: a 4-byte address as it is, the last four bytes of an
    IPv4-mapped 16-byte address, [nil] otherwise. *)
Definition To4 (ip : list byte) : option (list byte) :=
  if len ip =? IPv4len then Some ip
  else if (len ip =? IPv6len)
          && isZeros (firstn 10 ip)
          && Byte.eqb (nth 10 ip x00) xff
          && Byte.eqb (nth 11 ip x00) xff
  then Some (firstn 4 (skipn 12 ip))
  else None.

(** Dotted decimal notation of four bytes. *)
Definition string4 (p : list byte) : string :=
  let d (k : nat) := strconv.Itoa (int (nth k p x00)) in
  d 0%nat +++ "." +++ d 1%nat +++ "." +++ d 2%nat +++ "." +++ d 3%nat.

Definition hexdigit (d : Z) : ascii :=
  if d <? 10 then ascii_of_N (Z.to_N (48 + d))
  else ascii_of_N (Z.to_N (87 + d)).

(** [appendHex]: a 16-bit group in lower-case hexadecimal without
    leading zeros. *)
Definition appendHex (x : Z) : string :=
  (if 4096 <=? x then String (hexdigit (Z.shiftr x 12)) "" else "")
  +++ (if 256 <=? x then String (hexdigit (Z.land (Z.shiftr x 8) 15)) "" else "")
  +++ (if 16 <=? x then String (hexdigit (Z.land (Z.shiftr x 4) 15)) "" else "")
  +++ String (hexdigit (Z.land x 15)) "".

(** The eight 16-bit groups of a 16-byte address. *)
Fixpoint v6u16 (p : list byte) : list Z :=
  match p with
  | hi :: lo :: rest => (int hi * 256 + int lo) :: v6u16 rest
  | _ => []
  end.

Fixpoint zeroRun (g : list Z) : Z :=
  match g with
  | 0 :: t => 1 + zeroRun t
  | _ => 0
  end.

(** The first loop of [appendTo6]: the first longest run of at least
    two zero groups, as [(zeroStart, zeroEnd)], from [(255, 255)]. *)
Fixpoint zeroSpan (i : Z) (g : list Z) (best : Z * Z) : Z * Z :=
  match g with
  | [] => best
  | _ :: t =>
      let j := i + zeroRun g in
      let l := j - i in
      zeroSpan (i + 1) t
        (if (2 <=? l) && (snd best - fst best <? l) then (i, j) else best)
  end.

(** The second loop of [appendTo6], from group [i] on. *)
Fixpoint appendGroups (fuel : nat) (g : list Z) (span : Z * Z) (i : Z)
  : string :=
  match fuel with
  | O => ""
  | S f =>
      if 8 <=? i then ""
      else if i =? fst span then
        "::" +++ (if 8 <=? snd span then ""
                  else appendHex (nth (Z.to_nat (snd span)) g 0)
                       +++ appendGroups f g span (snd span + 1))
      else
        (if 0 <? i then ":" else "")
        +++ appendHex (nth (Z.to_nat i) g 0)
        +++ appendGroups f g span (i + 1)
  end.

Definition string6 (p : list byte) : string :=
  let g := v6u16 p in
  appendGroups 8 g (zeroSpan 0 g (255, 255)) 0.

Definition hexString (p : list byte) : string :=
  fold_right
    (fun b acc =>
       String (hexdigit (Z.shiftr (int b) 4))
         (String (hexdigit (Z.land (int b) 15)) acc))
    "" p.

(** [IP.String]. *)
Definition IP_String (ip : list byte) : string :=
  if len ip =? 0 then "<nil>"
  else if negb (len ip =? IPv4len) && negb (len ip =? IPv6len)
  then "?" +++ hexString ip
  else match To4 ip with
       | Some p4 => string4 p4
       | None => string6 ip
       end.

End net.

(** ** The identifier *)

(** [init]: the global [uuid] from the environment variable, whose
    value is [""] when it is unset. *)
Definition init (getenv_UUID : string) : string :=
  let uuid := if (getenv_UUID =? "")%string then "123456" else getenv_UUID in
  strings.ReplaceAll_hyphen uuid.

(** [hexToByte]: [b] starts at zero and the result of [Sscanf] is
    ignored. *)
Definition hexToByte (hex : string) : byte :=
  match fmt.Sscanf_02x hex with
  | Some v => uint8 v
  | None => x00
  end.

(** [validateUUID], the loop [for i, v := range id] from index [i] on. *)
Fixpoint validateUUID_from (uuid : string) (i : Z) (id : list byte)
  : result bool :=
  match id with
  | [] => Ok true
  | v :: rest =>
      (hex <- str_slice uuid (i * 2) (i * 2 + 2) ;;
       if Byte.eqb v (hexToByte hex) then validateUUID_from uuid (i + 1) rest
       else Ok false)%go
  end.

Definition validateUUID (uuid : string) (id : list byte) : result bool :=
  validateUUID_from uuid 0 id.

(** The bytes [validateUUID] compares a candidate with: [hexToByte] of
    the successive two-character pieces of [uuid], [n] of them. *)
Fixpoint expectedBytes (n : nat) (uuid : string) : list byte :=
  match n, uuid with
  | S n', String c1 (String c2 rest) =>
      hexToByte (String c1 (String c2 "")) :: expectedBytes n' rest
  | _, _ => []
  end.

(** The process-wide identifier: the sixteen bytes so obtained. *)
Definition Identifier (uuid : string) : list byte := expectedBytes 16 uuid.

(** The value a hexadecimal string denotes, as the specification reads
    the configured string: byte [k] is characters [2k] and [2k+1] as a
    two-digit hexadecimal number. *)
Definition hexValue (c : ascii) : Z :=
  match fmt.hexadecimalDigit c with
  | Some d => d
  | None => 0
  end.

Fixpoint literalHexValue (s : string) : list byte :=
  match s with
  | String c1 (String c2 rest) =>
      uint8 (16 * hexValue c1 + hexValue c2) :: literalHexValue rest
  | _ => []
  end.

Definition isHexDigit (c : ascii) : bool :=
  match fmt.hexadecimalDigit c with
  | Some _ => true
  | None => false
  end.

Fixpoint allHex (s : string) : bool :=
  match s with
  | EmptyString => true
  | String c rest => isHexDigit c && allHex rest
  end.

(** A well-formed configured identifier: 32 hexadecimal characters. *)
Definition wellFormedHex32 (uuid : string) : Prop :=
  String.length uuid = 32%nat /\ allHex uuid = true.

(** A blank that the scan skips in front of a number. *)
Definition skippedBlank (c : ascii) : bool :=
  fmt.isSpace c && negb (c =? "010")%char.

Fixpoint bytes_eqb (a b : list byte) : bool :=
  match a, b with
  | [], [] => true
  | x :: a', y :: b' => Byte.eqb x y && bytes_eqb a' b'
  | _, _ => false
  end.

Fixpoint drop (n : nat) (s : string) : string :=
  match n, s with
  | S n', String _ rest => drop n' rest
  | _, _ => s
  end.

(** ** The handshake header (lines 83-131 of [handleProxyRequest]) *)

Record header : Type := mkHeader {
  version : byte;
  host : string;
  targetPort : Z;
  atyp : byte;
  cursor : Z          (* the final value of [i] *)
}.

(** The [switch atyp] statement, entered with cursor [i]; it yields
    [host] and the new value of [i]. *)
Definition decodeAddress (message : list byte) (atyp : byte) (i : Z)
  : result (string * Z) :=
  (match int atyp with
   | 1 =>
       if len message <? i + 4 then Error ErrTooShortIPv4
       else
         ip <- slice message i (i + 4) ;;
         Ok (net.IP_String ip, i + 4)
   | 2 =>
       if len message <? i + 1 then Error ErrTooShortDomainLength
       else
         l <- index message i ;;
         let domainLen := int l in
         let i := i + 1 in
         if len message <? i + domainLen then Error ErrTooShortDomainName
         else
           name <- slice message i (i + domainLen) ;;
           Ok (string_of_list_byte name, i + domainLen)
   | 3 =>
       if len message <? i + 16 then Error ErrTooShortIPv6
       else
         ip <- slice message i (i + 16) ;;
         Ok (net.IP_String ip, i + 16)
   | _ => Error ErrUnknownAddressType
   end)%go.

(** Lines 94-102: the addon length, the bounds check, the port and the
    address type; it yields [(targetPort, atyp, i)]. *)
Definition readPortAndType (message : list byte) : result (Z * byte * Z) :=
  (n <- index message 17 ;;
   let i := int n + 19 in
   if len message <? i + 3 then Error ErrMessageTooShort
   else
     pb <- slice message i (i + 2) ;;
     targetPort <- binary.BigEndian_Uint16 pb ;;
     let i := i + 2 in
     atyp <- index message i ;;
     let i := i + 1 in
     Ok (targetPort, atyp, i))%go.

(** Lines 83-131 as a whole. *)
Definition parseHeader (uuid : string) (message : list byte) : result header :=
  (if len message <? 18 then Error ErrMessageTooShort
   else
     version <- index message 0 ;;
     id <- slice message 1 17 ;;
     valid <- validateUUID uuid id ;;
     if negb valid then Error ErrInvalidUUID
     else
       ' (targetPort, atyp, i) <- readPortAndType message ;;
       ' (host, i) <- decodeAddress message atyp i ;;
       Ok (mkHeader version host targetPort atyp i))%go.

(** The addon length [N]: the unsigned value of byte 17. *)
Definition addonLength (message : list byte) : Z := int (nth 17 message x00).

(** Dotted decimal text of four bytes. *)
Definition dottedDecimal (a b c d : byte) : string :=
  strconv.Itoa (int a) +++ "." +++ strconv.Itoa (int b) +++ "."
  +++ strconv.Itoa (int c) +++ "." +++ strconv.Itoa (int d).

(** An IPv4-mapped 16-byte address: ten zero bytes, then ff ff. *)
Definition isIPv4Mapped (p : list byte) : bool :=
  net.isZeros (firstn 10 p)
  && Byte.eqb (nth 10 p x00) xff
  && Byte.eqb (nth 11 p x00) xff.

(** The text [IP.String] gives for sixteen bytes. *)
Definition ipText16 (p : list byte) : string :=
  if isIPv4Mapped p
  then dottedDecimal (nth 12 p x00) (nth 13 p x00) (nth 14 p x00) (nth 15 p x00)
  else net.string6 p.

Fixpoint hasColon (s : string) : bool :=
  match s with
  | EmptyString => false
  | String c rest => (c =? ":")%char || hasColon rest
  end.

(** ** Transports, events and the environment *)

Definition TextMessage : Z := 1.
Definition BinaryMessage : Z := 2.

(** What [conn.ReadMessage] returns. *)
Inductive ws_read : Type :=
| WsMessage (messageType : Z) (message : list byte)
| WsReadError.

(** What the target has ready when [tcpConn.Read] is called. *)
Inductive tcp_read : Type :=
| TcpData (data : list byte)
| TcpReadError.

Inductive task : Type := WebSocketToTCP | TCPToWebSocket.

Inductive log_entry : Type :=
| LogNonBinary                                   (* "Received non-binary message" *)
| LogReadError                                   (* "Read error:" *)
| LogProxyError (e : error)                      (* "Proxy error:" *)
| LogConnectionDetails (host : string) (port : Z) (atyp : byte)
| LogNewConnection                               (* "New WebSocket connection established" *)
| LogUpgradeError.                               (* "WebSocket upgrade error:" *)

Inductive event : Type :=
| EvLog (l : log_entry)
| EvWsWrite (messageType : Z) (data : list byte)  (* wsConn.WriteMessage *)
| EvDial (network address : string)               (* net.Dial *)
| EvTcpWrite (data : list byte)                   (* tcpConn.Write *)
| EvGo (t : task)                                 (* go proxy... *)
| EvTcpClose                                      (* tcpConn.Close *)
| EvWsClose.                                      (* conn.Close *)

Definition trace : Type := list event.

(** The environment decides, from the events so far, whether a call
    succeeds. *)
Record Env : Type := mkEnv {
  ws_write_ok : trace -> Z -> list byte -> bool;
  dial_ok : trace -> string -> string -> bool;
  tcp_write_ok : trace -> list byte -> bool
}.

(** Computations that extend the trace.  Besides a value, an error or
    a panic, a computation may end [Blocked]: in a read for which no
    further input was supplied. *)
Inductive outcome (A : Type) : Type :=
| Done (r : result A)
| Blocked.

Arguments Done {A} r.
Arguments Blocked {A}.

Definition M (A : Type) : Type := trace -> outcome A * trace.

Definition ret {A : Type} (a : A) : M A := fun tr => (Done (Ok a), tr).

Definition lift {A : Type} (r : result A) : M A := fun tr => (Done r, tr).

Definition fail {A : Type} (e : error) : M A := fun tr => (Done (Error e), tr).

Definition blocked {A : Type} : M A := fun tr => (Blocked, tr).

Definition bindM {A B : Type} (m : M A) (k : A -> M B) : M B :=
  fun tr =>
    match m tr with
    | (Done (Ok a), tr') => k a tr'
    | (Done (Error e), tr') => (Done (Error e), tr')
    | (Done Panic, tr') => (Done Panic, tr')
    | (Blocked, tr') => (Blocked, tr')
    end.

Declare Scope io_scope.
Delimit Scope io_scope with io.
Notation "x <- c ;; k" := (bindM c (fun x => k))
  (at level 61, c at next level, right associativity) : io_scope.
Notation "c ;; k" := (bindM c (fun _ => k))
  (at level 61, right associativity) : io_scope.

Definition emit (e : event) : M unit := fun tr => (Done (Ok tt), tr ++ [e]).

(** [defer f()]: the event happens when the function leaves, by a
    return or by a panic, and not while it is still waiting. *)
Definition defer {A : Type} (e : event) (body : M A) : M A :=
  fun tr =>
    match body tr with
    | (Done r, tr') => (Done r, tr' ++ [e])
    | (Blocked, tr') => (Blocked, tr')
    end.

(** [wsConn.WriteMessage(messageType, data)]; [e] is the error the
    caller makes of a failure. *)
Definition WriteMessage (env : Env) (messageType : Z) (data : list byte)
  (e : error) : M unit :=
  fun tr =>
    (Done (if ws_write_ok env tr messageType data then Ok tt else Error e),
     tr ++ [EvWsWrite messageType data]).

(** [net.Dial(network, address)]. *)
Definition Dial (env : Env) (network address : string) (e : error) : M unit :=
  fun tr =>
    (Done (if dial_ok env tr network address then Ok tt else Error e),
     tr ++ [EvDial network address]).

(** [tcpConn.Write(data)]. *)
Definition Write (env : Env) (data : list byte) (e : error) : M unit :=
  fun tr =>
    (Done (if tcp_write_ok env tr data then Ok tt else Error e),
     tr ++ [EvTcpWrite data]).

(** ** The relay *)

(** The body of the loop of [proxyWebSocketToTCP] on one read: the
    message type is dropped ([_, message, err := ...]). *)
Definition proxyWebSocketToTCP_step (env : Env) (r : ws_read) : M unit :=
  match r with
  | WsReadError => fail ErrWebSocketRead
  | WsMessage _ message => Write env message ErrTCPWrite
  end.

(** The body of the loop of [proxyTCPToWebSocket] on one read into the
    4096-byte buffer. *)
Definition proxyTCPToWebSocket_step (env : Env) (chunk : option (list byte))
  : M unit :=
  match chunk with
  | None => fail ErrTCPRead
  | Some data => WriteMessage env BinaryMessage data ErrWebSocketWrite
  end.

(** [tcpConn.Read(buffer)]: at most 4096 bytes of what is ready; the
    rest stays for the next read. *)
Definition Read (tcp_in : list tcp_read)
  : option (option (list byte) * list tcp_read) :=
  match tcp_in with
  | [] => None
  | TcpReadError :: rest => Some (None, rest)
  | TcpData data :: rest =>
      Some (Some (firstn 4096 data),
            match skipn 4096 data with
            | [] => rest
            | more => TcpData more :: rest
            end)
  end.

(** The two tasks started by [go], interleaved by a schedule that names
    the task whose loop runs next, up to the first error sent on
    [errChan], which [err = <-errChan] receives.  No value arrives on
    the channel otherwise, hence the empty result type.  A task whose
    read has nothing to return waits.  What the other task still does
    between that first error and the closing of the connections is
    left out of the trace. *)
Fixpoint relay (env : Env) (sched : list task)
  (ws_in : list ws_read) (tcp_in : list tcp_read) : M Empty_set :=
  match sched with
  | [] => blocked
  | WebSocketToTCP :: sched' =>
      match ws_in with
      | [] => relay env sched' ws_in tcp_in
      | r :: ws_in' =>
          (proxyWebSocketToTCP_step env r ;; relay env sched' ws_in' tcp_in)%io
      end
  | TCPToWebSocket :: sched' =>
      match Read tcp_in with
      | None => relay env sched' ws_in tcp_in
      | Some (chunk, tcp_in') =>
          (proxyTCPToWebSocket_step env chunk ;; relay env sched' ws_in tcp_in')%io
      end
  end.

(** ** The session *)

(** Lines 143-157 of [handleProxyRequest], from [defer tcpConn.Close()]
    on: the initial payload, the two tasks, the first error. *)
Definition afterDial (env : Env) (sched : list task) (ws_in : list ws_read)
  (tcp_in : list tcp_read) (message : list byte) (h : header)
  : M Empty_set :=
  defer EvTcpClose
    ((if len message >? cursor h
      then (payload <- lift (slice_from message (cursor h)) ;;
            Write env payload ErrWriteInitial)
      else ret tt) ;;
     emit (EvGo WebSocketToTCP) ;;
     emit (EvGo TCPToWebSocket) ;;
     relay env sched ws_in tcp_in)%io.

(** [handleProxyRequest].  Every [return] of the function gives a
    non-nil error, so there is no [Ok] result. *)
Definition handleProxyRequest (env : Env) (uuid : string) (sched : list task)
  (ws_in : list ws_read) (tcp_in : list tcp_read) (message : list byte)
  : M Empty_set :=
  (h <- lift (parseHeader uuid message) ;;
   emit (EvLog (LogConnectionDetails (host h) (targetPort h) (atyp h))) ;;
   WriteMessage env BinaryMessage [version h; x00] ErrSendResponse ;;
   Dial env "tcp" (host h +++ ":" +++ strconv.Itoa (targetPort h))
     ErrConnectTarget ;;
   afterDial env sched ws_in tcp_in message h)%io.

(** The loop of [handleWebSocket]. *)
Fixpoint handleWebSocket_loop (env : Env) (uuid : string) (sched : list task)
  (tcp_in : list tcp_read) (ws_in : list ws_read) : M unit :=
  match ws_in with
  | [] => blocked
  | WsReadError :: _ => emit (EvLog LogReadError)
  | WsMessage messageType message :: rest =>
      if negb (messageType =? BinaryMessage)
      then (emit (EvLog LogNonBinary) ;;
            handleWebSocket_loop env uuid sched tcp_in rest)%io
      else
        fun tr =>
          match handleProxyRequest env uuid sched rest tcp_in message tr with
          | (Done (Ok nil_error), _) => match nil_error with end
          | (Done (Error e), tr') => emit (EvLog (LogProxyError e)) tr'
          | (Done Panic, tr') => (Done Panic, tr')
          | (Blocked, tr') => (Blocked, tr')
          end
  end.

(** [handleWebSocket], after the upgrade, which succeeds or not. *)
Definition handleWebSocket (env : Env) (uuid : string) (upgrade_ok : bool)
  (sched : list task) (tcp_in : list tcp_read) (ws_in : list ws_read)
  : M unit :=
  if negb upgrade_ok then emit (EvLog LogUpgradeError)
  else
    defer EvWsClose
      (emit (EvLog LogNewConnection) ;;
       handleWebSocket_loop env uuid sched tcp_in ws_in)%io.

(** The events of a session that has parsed the header [h]. *)
Definition logEvent (h : header) : event :=
  EvLog (LogConnectionDetails (host h) (targetPort h) (atyp h)).

Definition ackEvent (h : header) : event :=
  EvWsWrite BinaryMessage [version h; x00].

Definition dialAddress (h : header) : string :=
  host h +++ ":" +++ strconv.Itoa (targetPort h).

Definition dialEvent (h : header) : event := EvDial "tcp" (dialAddress h).

(** The initial payload: the frame from the final cursor on. *)
Definition initialPayload (h : header) (message : list byte) : list byte :=
  skipn (Z.to_nat (cursor h)) message.

(** ** Example data *)

Definition example_uuid : string := "123456789abcdef0123456789ABCDEF0".

Definition example_id : list byte :=
  [x12; x34; x56; x78; x9a; xbc; xde; xf0;
   x12; x34; x56; x78; x9a; xbc; xde; xf0].

(** Version 0, the identifier, two addon bytes, command 1, port 443,
    the domain "abc" and the payload "hi". *)
Definition example_frame : list byte :=
  x00 :: example_id
  ++ [x02; x01; xaa; xbb; x01; xbb; x02; x03; x61; x62; x63; x68; x69].

(** The same frame with another command byte and other addon bytes. *)
Definition example_frame' : list byte :=
  x00 :: example_id
  ++ [x02; x07; x11; x22; x01; xbb; x02; x03; x61; x62; x63; x68; x69].

Definition example_header : header := mkHeader x00 "abc" 443 x02 28.

(** Every call succeeds. *)
Definition env_ok : Env :=
  mkEnv (fun _ _ _ => true) (fun _ _ _ => true) (fun _ _ => true).

(** The target cannot be reached. *)
Definition env_unreachable : Env :=
  mkEnv (fun _ _ _ => true) (fun _ _ _ => false) (fun _ _ => true).

(** The target accepts the connection and no data. *)
Definition env_no_write : Env :=
  mkEnv (fun _ _ _ => true) (fun _ _ _ => true) (fun _ _ => false).

(** ** Observations on inputs and traces *)

(** [l1] is an initial part of [l2]. *)
Definition prefixOf {A : Type} (l1 l2 : list A) : Prop :=
  exists rest, l1 ++ rest = l2.

(** The data of the writes to the TCP connection, in order. *)
Fixpoint tcpWrites (tr : trace) : list (list byte) :=
  match tr with
  | [] => []
  | EvTcpWrite data :: t => data :: tcpWrites t
  | _ :: t => tcpWrites t
  end.

(** The messages written to the WebSocket, in order. *)
Fixpoint wsWrites (tr : trace) : list (Z * list byte) :=
  match tr with
  | [] => []
  | EvWsWrite messageType data :: t => (messageType, data) :: wsWrites t
  | _ :: t => wsWrites t
  end.

(** The messages the WebSocket delivers before its first read error. *)
Fixpoint wsPayloads (ws_in : list ws_read) : list (list byte) :=
  match ws_in with
  | WsMessage _ message :: rest => message :: wsPayloads rest
  | _ => []
  end.

(** The bytes the target delivers before its first read error. *)
Fixpoint tcpBytes (tcp_in : list tcp_read) : list byte :=
  match tcp_in with
  | TcpData data :: rest => data ++ tcpBytes rest
  | _ => []
  end.

Definition isData (e : event) : bool :=
  match e with
  | EvTcpWrite _ | EvWsWrite _ _ => true
  | _ => false
  end.

Definition isDial (e : event) : bool :=
  match e with
  | EvDial _ _ => true
  | _ => false
  end.

Definition isTcpClose (e : event) : bool :=
  match e with
  | EvTcpClose => true
  | _ => false
  end.

Definition isWsClose (e : event) : bool :=
  match e with
  | EvWsClose => true
  | _ => false
  end.

(** Neither a write nor a dial: a log line or the closing of the
    WebSocket. *)
Definition isQuiet (e : event) : bool :=
  match e with
  | EvLog _ | EvWsClose => true
  | _ => false
  end.

Definition count (f : event -> bool) (tr : trace) : nat :=
  List.length (filter f tr).

(** The first binary message the loop of [handleWebSocket] reaches,
    if any: non-binary messages are passed over and a read error ends
    the loop. *)
Fixpoint firstBinary (ws_in : list ws_read) : option (list byte) :=
  match ws_in with
  | [] => None
  | WsReadError :: _ => None
  | WsMessage messageType message :: rest =>
      if messageType =? BinaryMessage then Some message
      else firstBinary rest
  end.

(** The number of character pairs of [uuid] a candidate can be
    compared with. *)
Definition pairsAvailable (uuid : string) (id : list byte) : nat :=
  Nat.min (List.length id) (String.length uuid / 2).

(** The usual way of writing an identifier: five groups of
    hexadecimal digits separated by hyphens. *)
Definition hyphenated (a b c d e : string) : string :=
  a +++ "-" +++ b +++ "-" +++ c +++ "-" +++ d +++ "-" +++ e.

(** A frame laid out as the parser reads it: version, identifier,
    addon length, command, addon bytes, the two port bytes, the
    address type and what follows it. *)
Definition frame (v : byte) (id : list byte) (n cmd : byte)
  (addon : list byte) (hi lo ty : byte) (rest : list byte) : list byte :=
  (v :: id ++ n :: cmd :: addon) ++ hi :: lo :: ty :: rest.

(** The errors the two tasks send. *)
Definition relayError (e : error) : Prop :=
  e = ErrWebSocketRead \/ e = ErrTCPWrite \/ e = ErrTCPRead
  \/ e = ErrWebSocketWrite.

(** * Verification *)

(** Settles a comparison [a <? b] that arithmetic decides. *)
Ltac decide_ltb :=
  match goal with
  | |- context [?a <? ?b] =>
      first [ replace (a <? b) with true by (symmetry; apply Z.ltb_lt; lia)
            | replace (a <? b) with false by (symmetry; apply Z.ltb_ge; lia) ]
  end.

(** ** Bytes and integers *)

Lemma int_range (b : byte) : 0 <= int b < 256.
Proof.
  unfold int. pose proof (Byte.to_N_bounded b). lia.
Qed.

Lemma uint8_int (b : byte) : uint8 (int b) = b.
Proof.
  unfold uint8. rewrite Z.mod_small by apply int_range.
  unfold int. rewrite N2Z.id, Byte.of_to_N. reflexivity.
Qed.

Lemma int_uint8 (z : Z) : int (uint8 z) = z mod 256.
Proof.
  unfold uint8, int.
  assert (Hr : 0 <= z mod 256 < 256) by (apply Z.mod_pos_bound; lia).
  destruct (Byte.of_N (Z.to_N (z mod 256))) as [b|] eqn:E.
  - apply Byte.to_of_N in E. rewrite E. lia.
  - apply Byte.of_N_None_iff in E. lia.
Qed.

Lemma lor_shiftl_8 (a b : Z) :
  0 <= a < 256 -> 0 <= b -> Z.lor a (Z.shiftl b 8) = a + b * 256.
Proof.
  intros Ha Hb.
  rewrite Z.shiftl_mul_pow2 by lia. change (2 ^ 8) with 256.
  rewrite (Z.add_comm a), <- Z.lxor_lor.
  - symmetry. rewrite Z.lxor_comm. apply Z.add_nocarry_lxor.
    apply Z.bits_inj'. intros n Hn. rewrite Z.land_spec, Z.bits_0.
    destruct (Z.ltb_spec n 8).
    + replace (b * 256) with (Z.shiftl b 8)
        by (rewrite Z.shiftl_mul_pow2 by lia; reflexivity).
      rewrite Z.shiftl_spec_low by lia. reflexivity.
    + replace a with (a mod 2 ^ 8) by (apply Z.mod_small; simpl; lia).
      rewrite Z.mod_pow2_bits_high by lia. apply andb_false_r.
  - apply Z.bits_inj'. intros n Hn. rewrite Z.land_spec, Z.bits_0.
    destruct (Z.ltb_spec n 8).
    + replace (b * 256) with (Z.shiftl b 8)
        by (rewrite Z.shiftl_mul_pow2 by lia; reflexivity).
      rewrite Z.shiftl_spec_low by lia. apply andb_false_r.
    + replace a with (a mod 2 ^ 8) by (apply Z.mod_small; simpl; lia).
      rewrite Z.mod_pow2_bits_high by lia. reflexivity.
Qed.

(** The 16-bit read as arithmetic on the two bytes. *)
Lemma BigEndian_Uint16_value (b0 b1 : byte) (rest : list byte) :
  binary.BigEndian_Uint16 (b0 :: b1 :: rest) = Ok (int b0 * 256 + int b1).
Proof.
  unfold binary.BigEndian_Uint16.
  pose proof (int_range b0). pose proof (int_range b1).
  assert (E : Z.shiftl (int b0) 8 = int b0 * 256)
    by (rewrite Z.shiftl_mul_pow2 by lia; reflexivity).
  rewrite (Z.mod_small (Z.shiftl (int b0) 8)) by (rewrite E; lia).
  rewrite lor_shiftl_8 by lia. f_equal. lia.
Qed.

(** C9.  For every port value [P] in [0, 65535], writing [P] as two
    big-endian bytes and reading them back with the parser's
    big-endian 16-bit read yields [P]. *)
Theorem port_roundtrip (P : Z) :
  0 <= P <= 65535 ->
  binary.BigEndian_Uint16 (binary.BigEndian_PutUint16 P) = Ok P.
Proof.
  intros HP. unfold binary.BigEndian_PutUint16.
  rewrite BigEndian_Uint16_value, !int_uint8.
  rewrite Z.shiftr_div_pow2 by lia. change (2 ^ 8) with 256.
  f_equal.
  rewrite (Z.mod_small (P / 256)).
  - pose proof (Z.div_mod P 256). lia.
  - split; [apply Z.div_pos; lia | apply Z.div_lt_upper_bound; lia].
Qed.

Lemma port_roundtrip_witness :
  binary.BigEndian_Uint16 (binary.BigEndian_PutUint16 8080) = Ok 8080.
Proof.
  apply (port_roundtrip 8080). lia.
Defined.

(** ** The identifier *)

Lemma bytes_eqb_eq (a b : list byte) : bytes_eqb a b = true <-> a = b.
Proof.
  revert b. induction a as [|x a IH]; intros [|y b]; simpl;
    try (split; [discriminate | discriminate]); try tauto.
  rewrite andb_true_iff, IH. split.
  - intros [H ->]. apply Byte.byte_dec_bl in H. now subst.
  - intros H. injection H as -> ->. split; [apply Byte.byte_dec_lb|]; reflexivity.
Qed.

Lemma bytes_eqb_refl (a : list byte) : bytes_eqb a a = true.
Proof. now apply bytes_eqb_eq. Qed.

Lemma drop_length (n : nat) (s : string) :
  String.length (drop n s) = (String.length s - n)%nat.
Proof.
  revert s. induction n as [|n IH]; intros [|c s]; simpl; auto.
Qed.

Lemma drop_drop (n m : nat) (s : string) : drop m (drop n s) = drop (n + m) s.
Proof.
  revert s. induction n as [|n IH]; intros s; simpl; [reflexivity|].
  destruct s as [|c s]; simpl; [destruct m; reflexivity | apply IH].
Qed.

Lemma substring_drop (n m : nat) (s : string) :
  substring n m s = substring 0 m (drop n s).
Proof.
  revert s. induction n as [|n IH]; intros s; simpl; [reflexivity|].
  destruct s as [|c s]; [destruct m; reflexivity | apply IH].
Qed.

(** The slice [uuid[i*2 : i*2+2]] is the next two characters. *)
Lemma str_slice_pair (uuid : string) (i : nat) (c1 c2 : ascii) (rest : string) :
  drop (2 * i) uuid = String c1 (String c2 rest) ->
  str_slice uuid (Z.of_nat i * 2) (Z.of_nat i * 2 + 2)
  = Ok (String c1 (String c2 "")).
Proof.
  intros Hd. unfold str_slice, strlen.
  pose proof (drop_length (2 * i) uuid) as Hl. rewrite Hd in Hl. simpl in Hl.
  replace ((0 <=? Z.of_nat i * 2) && (Z.of_nat i * 2 <=? Z.of_nat i * 2 + 2)
           && (Z.of_nat i * 2 + 2 <=? Z.of_nat (String.length uuid)))
    with true by (symmetry; rewrite !andb_true_iff, !Z.leb_le; lia).
  replace (Z.to_nat (Z.of_nat i * 2)) with (2 * i)%nat by lia.
  replace (Z.to_nat (Z.of_nat i * 2 + 2 - Z.of_nat i * 2)) with 2%nat by lia.
  rewrite substring_drop, Hd. simpl. destruct rest; reflexivity.
Qed.

(** Too short a string makes the slice panic. *)
Lemma str_slice_short (uuid : string) (i : nat) :
  (String.length uuid < 2 * i + 2)%nat ->
  str_slice uuid (Z.of_nat i * 2) (Z.of_nat i * 2 + 2) = Panic.
Proof.
  intros H. unfold str_slice, strlen.
  replace (Z.of_nat i * 2 + 2 <=? Z.of_nat (String.length uuid)) with false
    by (symmetry; apply Z.leb_gt; lia).
  now rewrite andb_false_r.
Qed.

(** With enough characters left, the loop never panics and compares
    the candidate with [expectedBytes]. *)
Lemma validateUUID_from_expected (uuid : string) (id : list byte) (i : nat) :
  (2 * List.length id <= String.length (drop (2 * i) uuid))%nat ->
  validateUUID_from uuid (Z.of_nat i) id
  = Ok (bytes_eqb id (expectedBytes (List.length id) (drop (2 * i) uuid))).
Proof.
  revert i. induction id as [|v id IH]; intros i Hlen; [reflexivity|].
  simpl List.length in *.
  destruct (drop (2 * i) uuid) as [|c1 [|c2 rest]] eqn:Hd;
    try (simpl in Hlen; lia).
  cbn [validateUUID_from expectedBytes bytes_eqb].
  rewrite (str_slice_pair _ _ _ _ _ Hd). cbn [bind].
  assert (Hd' : drop (2 * S i) uuid = rest).
  { replace (2 * S i)%nat with (2 * i + 2)%nat by lia.
    rewrite <- drop_drop, Hd. reflexivity. }
  destruct (Byte.eqb v (hexToByte (String c1 (String c2 "")))); [|reflexivity].
  replace (Z.of_nat i + 1) with (Z.of_nat (S i)) by lia.
  rewrite IH; rewrite Hd'; [reflexivity|]. simpl in Hlen. lia.
Qed.

Lemma expectedBytes_length (n : nat) (s : string) :
  (2 * n <= String.length s)%nat -> List.length (expectedBytes n s) = n.
Proof.
  revert s. induction n as [|n IH]; intros s H; [reflexivity|].
  destruct s as [|c1 [|c2 rest]]; simpl in H; try lia.
  simpl. f_equal. apply IH. lia.
Qed.

(** [validateUUID] on a string of at least 32 characters. *)
Lemma validateUUID_Identifier (uuid : string) (id : list byte) :
  (32 <= String.length uuid)%nat ->
  List.length id = 16%nat ->
  validateUUID uuid id = Ok (bytes_eqb id (Identifier uuid)).
Proof.
  intros Hu Hid. unfold validateUUID, Identifier.
  change 0 with (Z.of_nat 0).
  rewrite validateUUID_from_expected; simpl drop; rewrite Hid; [reflexivity|lia].
Qed.

(** Below 32 characters some 16-byte candidate makes the comparison
    panic: the one that agrees with every pair the string has. *)
Lemma validateUUID_from_panics (uuid : string) (n : nat) :
  forall i : nat,
    (String.length (drop (2 * i) uuid) < 2 * n)%nat ->
    exists id : list byte,
      List.length id = n /\ validateUUID_from uuid (Z.of_nat i) id = Panic.
Proof.
  induction n as [|n IH]; intros i Hl; [lia|].
  destruct (drop (2 * i) uuid) as [|c1 [|c2 rest]] eqn:Hd.
  - exists (repeat x00 (S n)). split; [apply repeat_length|].
    cbn [repeat validateUUID_from]. rewrite str_slice_short; [reflexivity|].
    pose proof (drop_length (2 * i) uuid) as E. rewrite Hd in E.
    simpl in E. lia.
  - exists (repeat x00 (S n)). split; [apply repeat_length|].
    cbn [repeat validateUUID_from]. rewrite str_slice_short; [reflexivity|].
    pose proof (drop_length (2 * i) uuid) as E. rewrite Hd in E.
    simpl in E. lia.
  - assert (Hd' : drop (2 * S i) uuid = rest).
    { replace (2 * S i)%nat with (2 * i + 2)%nat by lia.
      rewrite <- drop_drop, Hd. reflexivity. }
    destruct (IH (S i)) as (id & Hid & Hp).
    { rewrite Hd'. simpl in Hl. lia. }
    exists (hexToByte (String c1 (String c2 "")) :: id).
    split; [simpl; now rewrite Hid|].
    cbn [validateUUID_from]. rewrite (str_slice_pair _ _ _ _ _ Hd).
    cbn [bind]. rewrite Byte.byte_dec_lb by reflexivity.
    replace (Z.of_nat i + 1) with (Z.of_nat (S i)) by lia. exact Hp.
Qed.

Lemma validateUUID_short_panics (uuid : string) :
  (String.length uuid < 32)%nat ->
  exists id : list byte,
    List.length id = 16%nat /\ validateUUID uuid id = Panic.
Proof.
  intros H. apply (validateUUID_from_panics uuid 16 0). simpl. lia.
Qed.

(** ** The per-byte conversion *)

Lemma hexadecimalDigit_facts (c : ascii) (d : Z) :
  fmt.hexadecimalDigit c = Some d ->
  0 <= d <= 15 /\ fmt.isSpace c = false
  /\ (c =? "010")%char = false /\ (c =? "013")%char = false.
Proof.
  destruct c as [[] [] [] [] [] [] [] []]; intros H; vm_compute in H;
    try discriminate H; injection H as <-; vm_compute;
    repeat split; discriminate.
Qed.

Lemma isSpace_not_digit (c : ascii) :
  fmt.isSpace c = true -> fmt.hexadecimalDigit c = None.
Proof.
  intros H. destruct (fmt.hexadecimalDigit c) as [d|] eqn:E; [|reflexivity].
  apply hexadecimalDigit_facts in E. destruct E as (_ & E & _). congruence.
Qed.

Lemma return_is_space : fmt.isSpace "013" = true.
Proof. reflexivity. Qed.

(** [hexToByte] on every two-character string. *)
Lemma hexToByte_pair (c1 c2 : ascii) :
  hexToByte (String c1 (String c2 "")) =
  match fmt.hexadecimalDigit c1, fmt.hexadecimalDigit c2 with
  | Some a, Some b => uint8 (16 * a + b)
  | Some a, None => uint8 a
  | None, Some b => if skippedBlank c1 then uint8 b else x00
  | None, None => x00
  end.
Proof.
  unfold hexToByte, fmt.Sscanf_02x, skippedBlank.
  destruct (fmt.hexadecimalDigit c1) as [a|] eqn:E1.
  - (* a digit first: nothing is skipped *)
    destruct (hexadecimalDigit_facts _ _ E1) as (Ha & Hs & Hn & Hr).
    cbn [fmt.SkipSpace]. rewrite ?Hr, ?Hn, ?Hs. cbn [andb].
    cbn [fmt.scanNumber]. rewrite E1.
    destruct (fmt.hexadecimalDigit c2) as [b|] eqn:E2.
    + destruct (hexadecimalDigit_facts _ _ E2) as (Hb & _).
      cbn [fmt.ParseUint16 fold_left].
      replace (16 * (16 * 0 + a) + b <=? 255) with true
        by (symmetry; apply Z.leb_le; lia).
      reflexivity.
    + cbn [fmt.ParseUint16 fold_left].
      replace (16 * 0 + a <=? 255) with true
        by (symmetry; apply Z.leb_le; lia).
      reflexivity.
  - cbn [fmt.SkipSpace fmt.peek].
    destruct (c1 =? "013")%char eqn:Hr1.
    + (* a carriage return first *)
      apply Ascii.eqb_eq in Hr1. subst c1.
      destruct (c2 =? "010")%char eqn:Hn2.
      * apply Ascii.eqb_eq in Hn2. subst c2. reflexivity.
      * cbn [andb]. change ("013" =? "010")%char with false.
        rewrite return_is_space. cbn [andb negb].
        destruct (fmt.hexadecimalDigit c2) as [b|] eqn:E2.
        -- destruct (hexadecimalDigit_facts _ _ E2) as (Hb & Hs & Hn & Hr).
           cbn [fmt.SkipSpace fmt.peek]. rewrite ?Hr, ?Hn, ?Hs. cbn [andb].
           cbn [fmt.scanNumber]. rewrite E2.
           cbn [fmt.ParseUint16 fold_left].
           replace (16 * 0 + b <=? 255) with true
             by (symmetry; apply Z.leb_le; lia).
           reflexivity.
        -- cbn [fmt.SkipSpace fmt.peek].
           destruct (c2 =? "013")%char; cbn [andb];
             destruct (fmt.isSpace c2); cbn [fmt.SkipSpace fmt.scanNumber];
             rewrite ?E2; reflexivity.
    + cbn [andb]. destruct (c1 =? "010")%char eqn:Hn1.
      * (* a newline first: the scan stops with an error *)
        rewrite andb_false_r. destruct (fmt.hexadecimalDigit c2); reflexivity.
      * destruct (fmt.isSpace c1) eqn:Hs1; cbn [andb negb].
        -- (* another blank first *)
           destruct (fmt.hexadecimalDigit c2) as [b|] eqn:E2.
           ++ destruct (hexadecimalDigit_facts _ _ E2) as (Hb & Hs & Hn & Hr).
              cbn [fmt.SkipSpace fmt.peek]. rewrite ?Hr, ?Hn, ?Hs. cbn [andb].
              cbn [fmt.scanNumber]. rewrite E2.
              cbn [fmt.ParseUint16 fold_left].
              replace (16 * 0 + b <=? 255) with true
                by (symmetry; apply Z.leb_le; lia).
              reflexivity.
           ++ cbn [fmt.SkipSpace fmt.peek].
              destruct (c2 =? "013")%char; cbn [andb];
                destruct (c2 =? "010")%char; try reflexivity;
                destruct (fmt.isSpace c2); cbn [fmt.SkipSpace fmt.scanNumber];
                rewrite ?E2; reflexivity.
        -- (* neither a blank nor a digit *)
           cbn [fmt.scanNumber]. rewrite E1.
           destruct (fmt.hexadecimalDigit c2); reflexivity.
Qed.



Lemma expectedBytes_literal (n : nat) (s : string) :
  String.length s = (2 * n)%nat -> allHex s = true ->
  expectedBytes n s = literalHexValue s.
Proof.
  revert s. induction n as [|n IH]; intros s Hl Hh.
  - destruct s; [reflexivity | discriminate Hl].
  - destruct s as [|c1 [|c2 rest]]; simpl in Hl; try lia.
    cbn [allHex] in Hh. apply andb_true_iff in Hh. destruct Hh as [H1 Hh].
    apply andb_true_iff in Hh. destruct Hh as [H2 Hh].
    cbn [expectedBytes literalHexValue].
    rewrite hexToByte_pair. unfold hexValue, isHexDigit in *.
    destruct (fmt.hexadecimalDigit c1); [|discriminate H1].
    destruct (fmt.hexadecimalDigit c2); [|discriminate H2].
    f_equal. apply IH; [lia | exact Hh].
Qed.

Lemma Identifier_wellFormed (uuid : string) :
  wellFormedHex32 uuid -> Identifier uuid = literalHexValue uuid.
Proof.
  intros [Hl Hh]. apply expectedBytes_literal; assumption.
Qed.

Lemma nth_differs (A : Type) (d : A) (k : nat) (a b : list A) :
  nth k a d <> nth k b d -> a <> b.
Proof. intros H E. apply H. now rewrite E. Qed.

(** C4.  When the configured string is 32 hexadecimal characters, a
    16-byte candidate that differs from the configured identifier in
    at least one byte position is rejected, and the candidate equal to
    it in all 16 bytes is accepted. *)
Theorem validateUUID_wellFormed (uuid : string) (id : list byte) :
  wellFormedHex32 uuid ->
  List.length id = 16%nat ->
  List.length (literalHexValue uuid) = 16%nat
  /\ ((exists k, (k < 16)%nat
                 /\ nth k id x00 <> nth k (literalHexValue uuid) x00) ->
      validateUUID uuid id = Ok false)
  /\ (id = literalHexValue uuid -> validateUUID uuid id = Ok true).
Proof.
  intros Hwf Hid.
  pose proof (Identifier_wellFormed uuid Hwf) as HI.
  destruct Hwf as [Hl Hh].
  rewrite validateUUID_Identifier by (try rewrite Hl; auto).
  rewrite HI. split; [|split].
  - rewrite <- HI. apply expectedBytes_length. rewrite Hl. auto.
  - intros (k & _ & Hk). apply nth_differs in Hk. f_equal.
    destruct (bytes_eqb id (literalHexValue uuid)) eqn:E; [|reflexivity].
    apply bytes_eqb_eq in E. contradiction.
  - intros ->. now rewrite bytes_eqb_refl.
Qed.

Lemma validateUUID_wellFormed_witness :
  validateUUID "123456789abcdef0123456789ABCDEF0"
    [x12; x34; x56; x78; x9a; xbc; xde; xf0;
     x12; x34; x56; x78; x9a; xbc; xde; xf1] = Ok false.
Proof.
  refine (proj1 (proj2 (validateUUID_wellFormed
                          "123456789abcdef0123456789ABCDEF0"
                          [x12; x34; x56; x78; x9a; xbc; xde; xf0;
                           x12; x34; x56; x78; x9a; xbc; xde; xf1] _ _)) _).
  - split; reflexivity.
  - reflexivity.
  - exists 15%nat. split; [lia | vm_compute; discriminate].
Defined.




(** When the configured value, hyphens removed, has at least 32
    characters, the identifier is exactly 16 bytes and [validateUUID]
    compares a 16-byte candidate with all of them and does not
    panic. *)
Lemma Identifier_sixteen_bytes (getenv_UUID : string) :
  (32 <= String.length (init getenv_UUID))%nat ->
  List.length (Identifier (init getenv_UUID)) = 16%nat
  /\ forall id : list byte,
      List.length id = 16%nat ->
      validateUUID (init getenv_UUID) id
      = Ok (bytes_eqb id (Identifier (init getenv_UUID))).
Proof.
  intros Hu. split.
  - apply expectedBytes_length. lia.
  - intros id Hid. now apply validateUUID_Identifier.
Qed.

Example Identifier_sixteen_bytes_example :
  List.length
    (Identifier (init "12345678-9abc-def0-1234-56789ABCDEF0")) = 16%nat.
Proof.
  refine (proj1 (Identifier_sixteen_bytes
                   "12345678-9abc-def0-1234-56789ABCDEF0" _)).
  apply Nat.leb_le. reflexivity.
Defined.

(** A configured value of eight hexadecimal characters gives no
    16-byte identifier, and the comparison of a candidate that agrees
    with it on the first four bytes panics. *)
Example short_identifier_example :
  init "1234-5678" = "12345678"
  /\ validateUUID (init "1234-5678")
       [x12; x34; x56; x78; x00; x00; x00; x00;
        x00; x00; x00; x00; x00; x00; x00; x00] = Panic.
Proof. split; reflexivity. Qed.

(** C2.  The code breaks the claim in the default case.  With no
    value configured [init] sets the six characters "123456", which
    hold three bytes and not sixteen; on a 16-byte candidate that
    begins 12 34 56 the fourth slice [uuid[6:8]] is out of range and
    [validateUUID] panics; and no 16-byte candidate at all is
    accepted. *)
Theorem default_identifier_panics :
  init "" = "123456"
  /\ String.length (init "") = 6%nat
  /\ validateUUID (init "")
       [x12; x34; x56; x00; x00; x00; x00; x00;
        x00; x00; x00; x00; x00; x00; x00; x00] = Panic
  /\ forall id : list byte,
      List.length id = 16%nat -> validateUUID (init "") id <> Ok true.
Proof.
  split; [reflexivity|]. split; [reflexivity|]. split; [reflexivity|].
  intros id Hid.
  destruct id as [|a [|b [|c [|d rest]]]]; try discriminate Hid.
  change (init "") with "123456". unfold validateUUID.
  cbn [validateUUID_from].
  change (str_slice "123456" (0 * 2) (0 * 2 + 2)) with (Ok "12").
  cbn [bind]. destruct (Byte.eqb a (hexToByte "12")); [|discriminate].
  change (str_slice "123456" ((0 + 1) * 2) ((0 + 1) * 2 + 2)) with (Ok "34").
  cbn [bind]. destruct (Byte.eqb b (hexToByte "34")); [|discriminate].
  change (str_slice "123456" ((0 + 1 + 1) * 2) ((0 + 1 + 1) * 2 + 2))
    with (Ok "56").
  cbn [bind]. destruct (Byte.eqb c (hexToByte "56")); [|discriminate].
  change (str_slice "123456" ((0 + 1 + 1 + 1) * 2) ((0 + 1 + 1 + 1) * 2 + 2))
    with (@Panic string).
  cbn [bind]. discriminate.
Qed.

(** ** Indexing and slicing *)

Lemma len_nonneg {A : Type} (l : list A) : 0 <= len l.
Proof. unfold len. lia. Qed.

Lemma len_app {A : Type} (l1 l2 : list A) : len (l1 ++ l2) = len l1 + len l2.
Proof. unfold len. rewrite length_app. lia. Qed.

Lemma to_nat_len {A : Type} (l : list A) : Z.to_nat (len l) = List.length l.
Proof. unfold len. apply Nat2Z.id. Qed.

Lemma index_ok (m : list byte) (i : Z) :
  0 <= i < len m -> index m i = Ok (nth (Z.to_nat i) m x00).
Proof.
  intros H. unfold index.
  replace ((0 <=? i) && (i <? len m)) with true; [reflexivity|].
  symmetry. rewrite andb_true_iff, Z.leb_le, Z.ltb_lt. lia.
Qed.

Lemma slice_ok (m : list byte) (lo hi : Z) :
  0 <= lo <= hi -> hi <= len m ->
  slice m lo hi = Ok (firstn (Z.to_nat (hi - lo)) (skipn (Z.to_nat lo) m)).
Proof.
  intros H1 H2. unfold slice.
  replace ((0 <=? lo) && (lo <=? hi) && (hi <=? len m)) with true;
    [reflexivity|].
  symmetry. rewrite !andb_true_iff, !Z.leb_le. lia.
Qed.

Lemma skipn_app_exact {A : Type} (l1 l2 : list A) :
  skipn (List.length l1) (l1 ++ l2) = l2.
Proof. induction l1; simpl; auto. Qed.

Lemma nth_app_exact {A : Type} (l1 l2 : list A) (d : A) (k : nat) :
  nth (List.length l1 + k) (l1 ++ l2) d = nth k l2 d.
Proof. induction l1; simpl; auto. Qed.

(** A slice of what follows a prefix. *)
Lemma slice_after (pre rest : list byte) (k : Z) :
  0 <= k <= len rest ->
  slice (pre ++ rest) (len pre) (len pre + k) = Ok (firstn (Z.to_nat k) rest).
Proof.
  intros Hk. pose proof (len_nonneg pre).
  rewrite slice_ok by (rewrite ?len_app; lia).
  rewrite to_nat_len, skipn_app_exact.
  do 2 f_equal. lia.
Qed.

Lemma index_after (pre rest : list byte) :
  0 < len rest ->
  index (pre ++ rest) (len pre) = Ok (nth 0 rest x00).
Proof.
  intros Hk. pose proof (len_nonneg pre).
  rewrite index_ok by (rewrite len_app; lia).
  rewrite to_nat_len, <- (Nat.add_0_r (List.length pre)).
  now rewrite nth_app_exact.
Qed.

Lemma firstn_skipn_two (m : list byte) (i : nat) :
  (i + 2 <= List.length m)%nat ->
  firstn 2 (skipn i m) = [nth i m x00; nth (i + 1) m x00].
Proof.
  revert m. induction i as [|i IH]; intros m H.
  - destruct m as [|a [|b m]]; simpl in H; try lia. reflexivity.
  - destruct m as [|a m]; simpl in H; [lia|]. simpl. apply IH. lia.
Qed.

(** ** The switch on the address type *)

Lemma decodeAddress_unknown (message : list byte) (atyp : byte) (i : Z) :
  int atyp <> 1 -> int atyp <> 2 -> int atyp <> 3 ->
  decodeAddress message atyp i = Error ErrUnknownAddressType.
Proof.
  intros H1 H2 H3. unfold decodeAddress.
  destruct (int atyp) as [|p|p]; try reflexivity.
  destruct p as [[p|p|]|[p|p|]|]; try reflexivity; lia.
Qed.

Lemma IP_String_four (a b c d : byte) :
  net.IP_String [a; b; c; d] = dottedDecimal a b c d.
Proof. reflexivity. Qed.

Lemma IP_String_sixteen (p : list byte) :
  List.length p = 16%nat -> net.IP_String p = ipText16 p.
Proof.
  intros H. unfold net.IP_String, net.To4, ipText16, isIPv4Mapped, len.
  rewrite H. cbn [Z.of_nat Pos.of_succ_nat Pos.succ Z.eqb Pos.eqb negb andb
                  net.IPv4len net.IPv6len].
  destruct (net.isZeros (firstn 10 p) && Byte.eqb (nth 10 p x00) xff
            && Byte.eqb (nth 11 p x00) xff); [|reflexivity].
  do 16 (destruct p as [|? p]; [discriminate H|]). reflexivity.
Qed.

Lemma decode_IPv4 (pre rest : list byte) :
  (if len (pre ++ rest) <? len pre + 4 then Error ErrTooShortIPv4
   else bind (slice (pre ++ rest) (len pre) (len pre + 4))
          (fun ip => Ok (net.IP_String ip, len pre + 4)))
  = match rest with
    | a :: b :: c :: d :: _ => Ok (dottedDecimal a b c d, len pre + 4)
    | _ => Error ErrTooShortIPv4
    end.
Proof.
  rewrite len_app.
  destruct rest as [|a [|b [|c [|d tail]]]];
    try (unfold len at 2; cbn [List.length Z.of_nat Pos.of_succ_nat Pos.succ];
         decide_ltb; reflexivity).
  assert (H : 4 <= len (a :: b :: c :: d :: tail))
    by (unfold len; cbn [List.length]; lia).
  decide_ltb. rewrite slice_after by lia. reflexivity.
Qed.

Lemma decode_domain (pre rest : list byte) :
  (if len (pre ++ rest) <? len pre + 1 then Error ErrTooShortDomainLength
   else bind (index (pre ++ rest) (len pre))
          (fun l =>
             if len (pre ++ rest) <? len pre + 1 + int l
             then Error ErrTooShortDomainName
             else bind (slice (pre ++ rest) (len pre + 1)
                          (len pre + 1 + int l))
                    (fun name =>
                       Ok (string_of_list_byte name, len pre + 1 + int l))))
  = match rest with
    | [] => Error ErrTooShortDomainLength
    | l :: name =>
        if len name <? int l then Error ErrTooShortDomainName
        else Ok (string_of_list_byte (firstn (Z.to_nat (int l)) name),
                 len pre + 1 + int l)
    end.
Proof.
  destruct rest as [|l name].
  - rewrite app_nil_r. decide_ltb. reflexivity.
  - assert (Hl : len (l :: name) = 1 + len name)
      by (unfold len; cbn [List.length]; lia).
    pose proof (len_nonneg name). pose proof (int_range l).
    rewrite len_app, Hl. decide_ltb.
    rewrite index_after by lia. cbn [bind nth].
    destruct (Z.ltb_spec (len name) (int l)).
    + decide_ltb. reflexivity.
    + decide_ltb.
      change (pre ++ l :: name) with (pre ++ [l] ++ name).
      rewrite app_assoc.
      replace (len pre + 1) with (len (pre ++ [l]))
        by (rewrite len_app; reflexivity).
      rewrite slice_after by lia. reflexivity.
Qed.

Lemma decode_IPv6 (pre rest : list byte) :
  (if len (pre ++ rest) <? len pre + 16 then Error ErrTooShortIPv6
   else bind (slice (pre ++ rest) (len pre) (len pre + 16))
          (fun ip => Ok (net.IP_String ip, len pre + 16)))
  = if len rest <? 16 then Error ErrTooShortIPv6
    else Ok (ipText16 (firstn 16 rest), len pre + 16).
Proof.
  rewrite len_app.
  destruct (Z.ltb_spec (len rest) 16).
  - decide_ltb. reflexivity.
  - decide_ltb. rewrite slice_after by lia. cbn [bind].
    rewrite IP_String_sixteen; [reflexivity|].
    rewrite length_firstn. unfold len in *. lia.
Qed.

(** C6, as the code has it.  With [rest] the bytes that follow the
    address-type tag: for tag 1 the decoder needs four bytes, yields
    their dotted decimal text and advances by 4; for tag 2 it needs a
    length byte [L] and [L] more bytes, yields those bytes as the
    host name and advances by [1 + L]; for tag 3 it needs sixteen
    bytes, yields the text of the address (dotted decimal when the
    address is IPv4-mapped, the IPv6 text otherwise) and advances by
    16; any other tag is the error "unknown address type"; and with
    too few bytes each case fails. *)
Theorem decodeAddress_remaining (pre rest : list byte) (atyp : byte) :
  decodeAddress (pre ++ rest) atyp (len pre) =
  match int atyp with
  | 1 =>
      match rest with
      | a :: b :: c :: d :: _ => Ok (dottedDecimal a b c d, len pre + 4)
      | _ => Error ErrTooShortIPv4
      end
  | 2 =>
      match rest with
      | [] => Error ErrTooShortDomainLength
      | l :: name =>
          if len name <? int l then Error ErrTooShortDomainName
          else Ok (string_of_list_byte (firstn (Z.to_nat (int l)) name),
                   len pre + 1 + int l)
      end
  | 3 =>
      if len rest <? 16 then Error ErrTooShortIPv6
      else Ok (if isIPv4Mapped (firstn 16 rest)
               then dottedDecimal (nth 12 rest x00) (nth 13 rest x00)
                      (nth 14 rest x00) (nth 15 rest x00)
               else net.string6 (firstn 16 rest),
               len pre + 16)
  | _ => Error ErrUnknownAddressType
  end.
Proof.
  unfold decodeAddress.
  destruct (int atyp) as [|[[p|p|]|[p|p|]|]|p]; try reflexivity.
  - rewrite decode_IPv6. destruct (len rest <? 16); [reflexivity|].
    unfold ipText16. rewrite !nth_firstn. reflexivity.
  - apply decode_domain.
  - apply decode_IPv4.
Qed.

(** C6, as stated, fails for tag 3: the sixteen bytes of the
    IPv4-mapped address ::ffff:1.2.3.4 yield the IPv4 text "1.2.3.4",
    which has no colon. *)
Lemma decodeAddress_counterexample :
  decodeAddress
    [x00; x00; x00; x00; x00; x00; x00; x00; x00; x00; xff; xff;
     x01; x02; x03; x04] x03 0
  = Ok ("1.2.3.4", 16)
  /\ hasColon "1.2.3.4" = false.
Proof. split; reflexivity. Qed.

(** The examples of the specification. *)
Example decodeAddress_ipv4_example :
  decodeAddress [xc0; xa8; x01; x01] x01 0 = Ok ("192.168.1.1", 4).
Proof. reflexivity. Qed.

Example decodeAddress_domain_example :
  decodeAddress [x03; x61; x62; x63] x02 0 = Ok ("abc", 4).
Proof. reflexivity. Qed.

Example decodeAddress_ipv6_example :
  decodeAddress
    [x00; x00; x00; x00; x00; x00; x00; x00; x00; x00; x00; x00;
     x00; x00; x00; x01] x03 0
  = Ok ("::1", 16).
Proof. reflexivity. Qed.

Example decodeAddress_unknown_example :
  decodeAddress [x00; x00; x00; x00] x04 0 = Error ErrUnknownAddressType.
Proof. reflexivity. Qed.

(** ** The fixed part of the header *)

Lemma readPortAndType_short (message : list byte) :
  18 <= len message ->
  len message < 22 + addonLength message ->
  readPortAndType message = Error ErrMessageTooShort.
Proof.
  intros H18 Hs. unfold readPortAndType, addonLength in *.
  rewrite index_ok by lia. cbn [bind]. change (Z.to_nat 17) with 17%nat.
  decide_ltb. reflexivity.
Qed.

Lemma readPortAndType_ok (message : list byte) :
  18 <= len message ->
  22 + addonLength message <= len message ->
  readPortAndType message
  = Ok (int (nth (Z.to_nat (19 + addonLength message)) message x00) * 256
        + int (nth (Z.to_nat (20 + addonLength message)) message x00),
        nth (Z.to_nat (21 + addonLength message)) message x00,
        22 + addonLength message).
Proof.
  intros H18 Hl. unfold readPortAndType, addonLength in *.
  rewrite index_ok by lia. cbn [bind]. change (Z.to_nat 17) with 17%nat.
  set (N := int (nth 17 message x00)) in *.
  assert (HN : 0 <= N < 256) by apply int_range.
  decide_ltb. rewrite slice_ok by lia.
  replace (Z.to_nat (N + 19 + 2 - (N + 19))) with 2%nat by lia.
  rewrite firstn_skipn_two by (unfold len in Hl; lia).
  cbn [bind]. rewrite BigEndian_Uint16_value. cbn [bind].
  rewrite index_ok by lia. cbn [bind].
  replace (Z.to_nat (N + 19) + 1)%nat with (Z.to_nat (20 + N)) by lia.
  replace (N + 19 + 2 + 1) with (22 + N) by lia.
  replace (N + 19 + 2) with (21 + N) by lia.
  replace (N + 19) with (19 + N) by lia.
  reflexivity.
Qed.

Lemma slice_not_error (m : list byte) (lo hi : Z) (e : error) :
  slice m lo hi <> Error e.
Proof. unfold slice. destruct (_ && _); discriminate. Qed.

Lemma index_not_error (m : list byte) (i : Z) (e : error) :
  index m i <> Error e.
Proof. unfold index. destruct (_ && _); discriminate. Qed.

Lemma decodeAddress_not_too_short (message : list byte) (atyp : byte) (i : Z) :
  decodeAddress message atyp i <> Error ErrMessageTooShort.
Proof.
  unfold decodeAddress.
  destruct (int atyp) as [|[[p|p|]|[p|p|]|]|p]; try discriminate.
  - destruct (len message <? i + 16); [discriminate|].
    destruct (slice message i (i + 16)) eqn:E; cbn [bind]; try discriminate.
    now apply slice_not_error in E.
  - destruct (len message <? i + 1); [discriminate|].
    destruct (index message i) as [l| |] eqn:E; cbn [bind]; try discriminate.
    + destruct (len message <? i + 1 + int l); [discriminate|].
      destruct (slice message (i + 1) (i + 1 + int l)) eqn:E';
        cbn [bind]; try discriminate.
      now apply slice_not_error in E'.
    + now apply index_not_error in E.
  - destruct (len message <? i + 4); [discriminate|].
    destruct (slice message i (i + 4)) eqn:E; cbn [bind]; try discriminate.
    now apply slice_not_error in E.
Qed.

(** After the length and identifier checks, what is left of
    [parseHeader]. *)
Lemma parseHeader_authenticated (uuid : string) (message : list byte) :
  18 <= len message ->
  validateUUID uuid (firstn 16 (skipn 1 message)) = Ok true ->
  parseHeader uuid message
  = bind (readPortAndType message)
      (fun '(targetPort, atyp, i) =>
         bind (decodeAddress message atyp i)
           (fun '(host, i) =>
              Ok (mkHeader (nth 0 message x00) host targetPort atyp i))).
Proof.
  intros H18 Hv. unfold parseHeader. decide_ltb.
  rewrite index_ok by lia. cbn [bind].
  rewrite slice_ok by lia. cbn [bind].
  change (Z.to_nat (17 - 1)) with 16%nat. change (Z.to_nat 1) with 1%nat.
  rewrite Hv. reflexivity.
Qed.

(** ** Bytes the parser does not look at *)

Section Agreement.

Variables (c : nat) (m m' : list byte).
Hypothesis Hlen : len m' = len m.
Hypothesis Hprefix : firstn 18 m' = firstn 18 m.
Hypothesis Hsuffix : skipn c m' = skipn c m.

Lemma index_agree_prefix (i : Z) :
  0 <= i < 18 -> index m' i = index m i.
Proof.
  intros Hi. unfold index. rewrite Hlen.
  assert (E : forall l : list byte,
             nth (Z.to_nat i) l x00 = nth (Z.to_nat i) (firstn 18 l) x00).
  { intros l. rewrite nth_firstn.
    now replace (Z.to_nat i <? 18)%nat with true
      by (symmetry; apply Nat.ltb_lt; lia). }
  now rewrite (E m'), (E m), Hprefix.
Qed.

Lemma slice_agree_identifier : slice m' 1 17 = slice m 1 17.
Proof.
  unfold slice. rewrite Hlen.
  change (Z.to_nat (17 - 1)) with 16%nat. change (Z.to_nat 1) with 1%nat.
  assert (E : forall l : list byte,
             firstn 16 (skipn 1 l) = skipn 1 (firstn 17 (firstn 18 l))).
  { intros l. rewrite firstn_firstn. apply firstn_skipn_comm. }
  now rewrite (E m'), (E m), Hprefix.
Qed.

Lemma index_agree (i : Z) :
  Z.of_nat c <= i -> index m' i = index m i.
Proof.
  intros Hi. unfold index. rewrite Hlen.
  replace (Z.to_nat i) with (c + (Z.to_nat i - c))%nat by lia.
  now rewrite <- !nth_skipn, Hsuffix.
Qed.

Lemma slice_agree (lo hi : Z) :
  Z.of_nat c <= lo -> slice m' lo hi = slice m lo hi.
Proof.
  intros Hlo. unfold slice. rewrite Hlen.
  replace (Z.to_nat lo) with ((Z.to_nat lo - c) + c)%nat by lia.
  now rewrite <- !skipn_skipn, Hsuffix.
Qed.

Lemma decodeAddress_agree (atyp : byte) (i : Z) :
  Z.of_nat c <= i -> decodeAddress m' atyp i = decodeAddress m atyp i.
Proof.
  intros Hi. unfold decodeAddress. rewrite Hlen.
  destruct (int atyp) as [|[[p|p|]|[p|p|]|]|p]; try reflexivity.
  - now rewrite slice_agree.
  - rewrite index_agree by lia.
    destruct (len m <? i + 1); [reflexivity|].
    destruct (index m i) as [l| |]; cbn [bind]; try reflexivity.
    pose proof (int_range l).
    now rewrite slice_agree by lia.
  - now rewrite slice_agree.
Qed.

Lemma parseHeader_agree (uuid : string) :
  c = Z.to_nat (19 + addonLength m) ->
  parseHeader uuid m' = parseHeader uuid m.
Proof.
  intros Hc. unfold parseHeader, readPortAndType. rewrite Hlen.
  destruct (len m <? 18) eqn:H18; [reflexivity|]. apply Z.ltb_ge in H18.
  rewrite (index_agree_prefix 0), slice_agree_identifier by lia.
  rewrite (index_agree_prefix 17) by lia.
  destruct (index m 0) as [v| |]; cbn [bind]; try reflexivity.
  destruct (slice m 1 17) as [id| |]; cbn [bind]; try reflexivity.
  destruct (validateUUID uuid id) as [ok| |]; cbn [bind]; try reflexivity.
  destruct (negb ok); [reflexivity|].
  rewrite (index_ok m 17) by lia. cbn [bind].
  change (Z.to_nat 17) with 17%nat.
  fold (addonLength m). pose proof (int_range (nth 17 m x00)) as HN.
  fold (addonLength m) in HN.
  destruct (len m <? addonLength m + 19 + 3); [reflexivity|].
  rewrite slice_agree by lia.
  destruct (slice m (addonLength m + 19) (addonLength m + 19 + 2))
    as [pb| |]; cbn [bind]; try reflexivity.
  destruct (binary.BigEndian_Uint16 pb) as [port| |]; cbn [bind];
    try reflexivity.
  rewrite index_agree by lia.
  destruct (index m (addonLength m + 19 + 2)) as [a| |]; cbn [bind];
    try reflexivity.
  now rewrite decodeAddress_agree by lia.
Qed.

End Agreement.

(** C5.  For a frame of at least 18 bytes whose identifier
    authenticates, with [N] the unsigned value of byte 17: parsing
    fails with "message too short" exactly when the frame is shorter
    than [22 + N]; otherwise the target port is the big-endian 16-bit
    number at offsets [19 + N] and [20 + N] and the address type is
    byte [21 + N]; and the command byte and the [N] addon bytes are
    not interpreted: a frame of the same length that differs only
    there parses to the same result. *)
Theorem port_and_type_after_addon (uuid : string) (message : list byte) :
  18 <= len message ->
  validateUUID uuid (firstn 16 (skipn 1 message)) = Ok true ->
  (parseHeader uuid message = Error ErrMessageTooShort
   <-> len message < 22 + addonLength message)
  /\ (22 + addonLength message <= len message ->
      readPortAndType message
      = Ok (int (nth (Z.to_nat (19 + addonLength message)) message x00) * 256
            + int (nth (Z.to_nat (20 + addonLength message)) message x00),
            nth (Z.to_nat (21 + addonLength message)) message x00,
            22 + addonLength message)
      /\ forall h : header,
          parseHeader uuid message = Ok h ->
          targetPort h
          = int (nth (Z.to_nat (19 + addonLength message)) message x00) * 256
            + int (nth (Z.to_nat (20 + addonLength message)) message x00)
          /\ atyp h = nth (Z.to_nat (21 + addonLength message)) message x00)
  /\ (forall message' : list byte,
        len message' = len message ->
        firstn 18 message' = firstn 18 message ->
        skipn (Z.to_nat (19 + addonLength message)) message'
        = skipn (Z.to_nat (19 + addonLength message)) message ->
        parseHeader uuid message' = parseHeader uuid message).
Proof.
  intros H18 Hv.
  pose proof (parseHeader_authenticated uuid message H18 Hv) as Hp.
  split; [|split].
  - split.
    + intros He. destruct (Z.lt_ge_cases (len message) (22 + addonLength message))
        as [Hlt|Hge]; [exact Hlt|exfalso].
      rewrite Hp, readPortAndType_ok in He by lia. cbn [bind] in He.
      destruct (decodeAddress message _ _) as [[hst i]| |] eqn:E;
        cbn [bind] in He; try discriminate He.
      injection He as ->. now apply decodeAddress_not_too_short in E.
    + intros Hlt. now rewrite Hp, readPortAndType_short.
  - intros Hge. split; [now apply readPortAndType_ok|].
    intros h Hh. rewrite Hp, readPortAndType_ok in Hh by lia.
    cbn [bind] in Hh.
    destruct (decodeAddress message _ _) as [[hst i]| |];
      cbn [bind] in Hh; try discriminate Hh.
    injection Hh as <-. split; reflexivity.
  - intros message' Hlen Hpre Hsuf.
    now apply (parseHeader_agree (Z.to_nat (19 + addonLength message))).
Qed.

Lemma port_and_type_after_addon_witness :
  parseHeader example_uuid example_frame = Error ErrMessageTooShort
  <-> len example_frame < 22 + addonLength example_frame.
Proof.
  refine (proj1 (port_and_type_after_addon example_uuid example_frame _ _)).
  - vm_compute. discriminate.
  - reflexivity.
Defined.

(** ** The cursor stays inside the frame *)

Lemma readPortAndType_cursor (m : list byte) (p : Z) (a : byte) (i : Z) :
  readPortAndType m = Ok (p, a, i) -> 22 <= i <= len m.
Proof.
  unfold readPortAndType.
  destruct (index m 17) as [n| |]; cbn [bind]; try discriminate.
  pose proof (int_range n).
  destruct (Z.ltb_spec (len m) (int n + 19 + 3)); [discriminate|].
  destruct (slice m _ _) as [pb| |]; cbn [bind]; try discriminate.
  destruct (binary.BigEndian_Uint16 pb); cbn [bind]; try discriminate.
  destruct (index m _); cbn [bind]; try discriminate.
  intros E. injection E as _ _ <-. lia.
Qed.

Lemma decodeAddress_cursor (m : list byte) (a : byte) (i : Z) (hst : string)
  (i' : Z) :
  decodeAddress m a i = Ok (hst, i') -> i <= i' <= len m.
Proof.
  unfold decodeAddress.
  destruct (int a) as [|[[p|p|]|[p|p|]|]|p]; try discriminate.
  - destruct (Z.ltb_spec (len m) (i + 16)); [discriminate|].
    destruct (slice m _ _); cbn [bind]; try discriminate.
    intros E. injection E as _ <-. lia.
  - destruct (Z.ltb_spec (len m) (i + 1)); [discriminate|].
    destruct (index m i) as [l| |]; cbn [bind]; try discriminate.
    pose proof (int_range l).
    destruct (Z.ltb_spec (len m) (i + 1 + int l)); [discriminate|].
    destruct (slice m _ _); cbn [bind]; try discriminate.
    intros E. injection E as _ <-. lia.
  - destruct (Z.ltb_spec (len m) (i + 4)); [discriminate|].
    destruct (slice m _ _); cbn [bind]; try discriminate.
    intros E. injection E as _ <-. lia.
Qed.

Lemma parseHeader_cursor (uuid : string) (m : list byte) (h : header) :
  parseHeader uuid m = Ok h -> 22 <= cursor h <= len m.
Proof.
  unfold parseHeader.
  destruct (len m <? 18); [discriminate|].
  destruct (index m 0); cbn [bind]; try discriminate.
  destruct (slice m 1 17); cbn [bind]; try discriminate.
  destruct (validateUUID uuid _) as [ok| |]; cbn [bind]; try discriminate.
  destruct (negb ok); [discriminate|].
  destruct (readPortAndType m) as [[[p ty] i]| |] eqn:Er; cbn [bind];
    try discriminate.
  apply readPortAndType_cursor in Er.
  destruct (decodeAddress m ty i) as [[hst i']| |] eqn:Ed; cbn [bind];
    try discriminate.
  apply decodeAddress_cursor in Ed.
  intros E. injection E as <-. cbn [cursor]. lia.
Qed.

(** ** The session *)

(** A header that does not parse ends the session at once. *)
Lemma handleProxyRequest_rejected (env : Env) (uuid : string)
  (sched : list task) (ws_in : list ws_read) (tcp_in : list tcp_read)
  (message : list byte) (tr : trace) (e : error) :
  parseHeader uuid message = Error e ->
  handleProxyRequest env uuid sched ws_in tcp_in message tr
  = (Done (Error e), tr).
Proof.
  intros H. unfold handleProxyRequest, bindM, lift. now rewrite H.
Qed.

(** A header that parses: the log line, the acknowledgment, the dial,
    in this order. *)
Lemma handleProxyRequest_parsed (env : Env) (uuid : string)
  (sched : list task) (ws_in : list ws_read) (tcp_in : list tcp_read)
  (message : list byte) (tr : trace) (h : header) :
  parseHeader uuid message = Ok h ->
  handleProxyRequest env uuid sched ws_in tcp_in message tr
  = if ws_write_ok env (tr ++ [logEvent h]) BinaryMessage [version h; x00]
    then
      if dial_ok env (tr ++ [logEvent h; ackEvent h]) "tcp" (dialAddress h)
      then afterDial env sched ws_in tcp_in message h
             (tr ++ [logEvent h; ackEvent h; dialEvent h])
      else (Done (Error ErrConnectTarget),
            tr ++ [logEvent h; ackEvent h; dialEvent h])
    else (Done (Error ErrSendResponse), tr ++ [logEvent h; ackEvent h]).
Proof.
  intros H. unfold handleProxyRequest, bindM at 1, lift. rewrite H.
  unfold bindM at 1, emit. fold (logEvent h).
  unfold bindM at 1, WriteMessage. fold (ackEvent h).
  replace ((tr ++ [logEvent h]) ++ [ackEvent h])
    with (tr ++ [logEvent h; ackEvent h]) by (now rewrite <- app_assoc).
  destruct (ws_write_ok env _ _ _); [|reflexivity].
  unfold bindM at 1, Dial. fold (dialAddress h). fold (dialEvent h).
  replace ((tr ++ [logEvent h; ackEvent h]) ++ [dialEvent h])
    with (tr ++ [logEvent h; ackEvent h; dialEvent h])
    by (now rewrite <- app_assoc).
  destruct (dial_ok env _ _ _); reflexivity.
Qed.

(** The relay only adds events. *)
Lemma relay_extends (env : Env) (sched : list task) :
  forall (ws_in : list ws_read) (tcp_in : list tcp_read) (tr : trace),
  exists rest, snd (relay env sched ws_in tcp_in tr) = tr ++ rest.
Proof.
  induction sched as [|t sched IH]; intros ws_in tcp_in tr.
  - exists []. now rewrite app_nil_r.
  - destruct t; cbn [relay].
    + destruct ws_in as [|[mt message|] ws_in']; [apply IH| |].
      * unfold bindM, proxyWebSocketToTCP_step, Write.
        destruct (tcp_write_ok env tr message).
        -- destruct (IH ws_in' tcp_in (tr ++ [EvTcpWrite message])) as [rest E].
           exists (EvTcpWrite message :: rest). rewrite E.
           now rewrite <- app_assoc.
        -- now exists [EvTcpWrite message].
      * exists []. now rewrite app_nil_r.
    + destruct (Read tcp_in) as [[[data|] tcp_in']|]; [| |apply IH].
      * unfold bindM, proxyTCPToWebSocket_step, WriteMessage.
        destruct (ws_write_ok env tr BinaryMessage data).
        -- destruct (IH ws_in tcp_in' (tr ++ [EvWsWrite BinaryMessage data]))
             as [rest E].
           exists (EvWsWrite BinaryMessage data :: rest). rewrite E.
           now rewrite <- app_assoc.
        -- now exists [EvWsWrite BinaryMessage data].
      * exists []. now rewrite app_nil_r.
Qed.

(** Once the tasks are started the trace shows both starts and then
    what the relay adds. *)
Lemma started_extends (env : Env) (sched : list task) (ws_in : list ws_read)
  (tcp_in : list tcp_read) (tr : trace) :
  exists rest,
    snd (defer EvTcpClose
           (emit (EvGo WebSocketToTCP) ;;
            emit (EvGo TCPToWebSocket) ;;
            relay env sched ws_in tcp_in)%io tr)
    = tr ++ [EvGo WebSocketToTCP; EvGo TCPToWebSocket] ++ rest.
Proof.
  unfold defer, bindM, emit.
  destruct (relay_extends env sched ws_in tcp_in
              ((tr ++ [EvGo WebSocketToTCP]) ++ [EvGo TCPToWebSocket]))
    as [rest E].
  destruct (relay env sched ws_in tcp_in _) as [[[v|e|]|] tr'];
    cbn [snd] in *; subst tr'.
  - destruct v.
  - exists (rest ++ [EvTcpClose]).
    now rewrite <- !app_assoc.
  - exists (rest ++ [EvTcpClose]).
    now rewrite <- !app_assoc.
  - exists rest. now rewrite <- !app_assoc.
Qed.

(** C7.  A frame shorter than 18 bytes fails with "message too
    short", whatever the identifier is, even one whose comparison
    would panic, and the session does nothing: no acknowledgment, no
    dial, no forwarding. *)
Theorem short_frame_rejected (env : Env) (uuid : string) (sched : list task)
  (ws_in : list ws_read) (tcp_in : list tcp_read) (message : list byte)
  (tr : trace) :
  len message < 18 ->
  parseHeader uuid message = Error ErrMessageTooShort
  /\ handleProxyRequest env uuid sched ws_in tcp_in message tr
     = (Done (Error ErrMessageTooShort), tr).
Proof.
  intros H.
  assert (E : parseHeader uuid message = Error ErrMessageTooShort).
  { unfold parseHeader. decide_ltb. reflexivity. }
  split; [exact E | now apply handleProxyRequest_rejected].
Qed.

Lemma short_frame_rejected_witness :
  parseHeader "" (x00 :: example_id) = Error ErrMessageTooShort
  /\ handleProxyRequest env_ok "" [WebSocketToTCP] [] [] (x00 :: example_id) []
     = (Done (Error ErrMessageTooShort), []).
Proof.
  apply (short_frame_rejected env_ok "" [WebSocketToTCP] [] []
           (x00 :: example_id) []).
  reflexivity.
Defined.

Lemma slice_from_ok (m : list byte) (lo : Z) :
  0 <= lo <= len m -> slice_from m lo = Ok (skipn (Z.to_nat lo) m).
Proof.
  intros H. unfold slice_from. rewrite slice_ok by lia. f_equal.
  apply firstn_all2. rewrite length_skipn. unfold len. lia.
Qed.

Lemma initialPayload_nil (h : header) (m : list byte) :
  0 <= cursor h <= len m ->
  (initialPayload h m = [] <-> cursor h = len m).
Proof.
  intros H. unfold initialPayload. rewrite <- skipn_all_iff.
  unfold len in *. lia.
Qed.

Lemma parseHeader_version (uuid : string) (m : list byte) (h : header) :
  parseHeader uuid m = Ok h -> version h = nth 0 m x00.
Proof.
  unfold parseHeader.
  destruct (Z.ltb_spec (len m) 18); [discriminate|].
  rewrite index_ok by lia. cbn [bind].
  destruct (slice m 1 17); cbn [bind]; try discriminate.
  destruct (validateUUID uuid _) as [ok| |]; cbn [bind]; try discriminate.
  destruct (negb ok); [discriminate|].
  destruct (readPortAndType m) as [[[p ty] i]| |]; cbn [bind];
    try discriminate.
  destruct (decodeAddress m ty i) as [[hst i']| |]; cbn [bind];
    try discriminate.
  intros E. injection E as <-. reflexivity.
Qed.

(** After the dial: the initial payload, if any, then the two tasks. *)
Lemma afterDial_cases (env : Env) (sched : list task) (ws_in : list ws_read)
  (tcp_in : list tcp_read) (message : list byte) (h : header) (tr : trace) :
  0 <= cursor h <= len message ->
  afterDial env sched ws_in tcp_in message h tr
  = match initialPayload h message with
    | [] =>
        defer EvTcpClose
          (emit (EvGo WebSocketToTCP) ;;
           emit (EvGo TCPToWebSocket) ;;
           relay env sched ws_in tcp_in)%io tr
    | _ :: _ =>
        if tcp_write_ok env tr (initialPayload h message)
        then
          defer EvTcpClose
            (emit (EvGo WebSocketToTCP) ;;
             emit (EvGo TCPToWebSocket) ;;
             relay env sched ws_in tcp_in)%io
            (tr ++ [EvTcpWrite (initialPayload h message)])
        else (Done (Error ErrWriteInitial),
              tr ++ [EvTcpWrite (initialPayload h message); EvTcpClose])
    end.
Proof.
  intros Hc. pose proof (initialPayload_nil h message Hc) as Hn.
  unfold afterDial.
  destruct (Z.gtb_spec (len message) (cursor h)) as [Hgt|Hle].
  - rewrite slice_from_ok by lia. fold (initialPayload h message).
    destruct (initialPayload h message) as [|b payload] eqn:Ep.
    + exfalso. assert (cursor h = len message) by now apply Hn. lia.
    + unfold defer, bindM at 1 2, lift, Write.
      destruct (tcp_write_ok env tr (b :: payload)); [reflexivity|].
      now rewrite <- app_assoc.
  - assert (Ep : initialPayload h message = []) by (apply Hn; lia).
    rewrite Ep. reflexivity.
Qed.

Lemma afterDial_extends (env : Env) (sched : list task) (ws_in : list ws_read)
  (tcp_in : list tcp_read) (message : list byte) (h : header) (tr : trace) :
  0 <= cursor h <= len message ->
  exists rest, snd (afterDial env sched ws_in tcp_in message h tr) = tr ++ rest.
Proof.
  intros Hc. rewrite afterDial_cases by exact Hc.
  destruct (initialPayload h message) as [|b payload].
  - destruct (started_extends env sched ws_in tcp_in tr) as [rest E].
    rewrite E. eauto.
  - destruct (tcp_write_ok env tr (b :: payload)).
    + destruct (started_extends env sched ws_in tcp_in
                  (tr ++ [EvTcpWrite (b :: payload)])) as [rest E].
      rewrite E, <- app_assoc. eauto.
    + cbn [snd]. eauto.
Qed.

(** C1, as the code has it.  Once the header is parsed the
    acknowledgment, the version byte of the frame followed by 0x00,
    is written to the WebSocket before the target is dialed.  If that
    write fails there is no dial; if the dial fails the session ends
    with the acknowledgment already sent and nothing forwarded; if it
    succeeds, everything else, the forwarding of the initial payload
    included, comes after the acknowledgment and the dial. *)
Theorem ack_precedes_dial (env : Env) (uuid : string) (sched : list task)
  (ws_in : list ws_read) (tcp_in : list tcp_read) (message : list byte)
  (tr : trace) (h : header) :
  parseHeader uuid message = Ok h ->
  ackEvent h = EvWsWrite BinaryMessage [nth 0 message x00; x00]
  /\ (ws_write_ok env (tr ++ [logEvent h]) BinaryMessage [version h; x00]
      = false ->
      handleProxyRequest env uuid sched ws_in tcp_in message tr
      = (Done (Error ErrSendResponse), tr ++ [logEvent h; ackEvent h]))
  /\ (ws_write_ok env (tr ++ [logEvent h]) BinaryMessage [version h; x00]
      = true ->
      dial_ok env (tr ++ [logEvent h; ackEvent h]) "tcp" (dialAddress h)
      = false ->
      handleProxyRequest env uuid sched ws_in tcp_in message tr
      = (Done (Error ErrConnectTarget),
         tr ++ [logEvent h; ackEvent h; dialEvent h]))
  /\ (ws_write_ok env (tr ++ [logEvent h]) BinaryMessage [version h; x00]
      = true ->
      dial_ok env (tr ++ [logEvent h; ackEvent h]) "tcp" (dialAddress h)
      = true ->
      exists rest,
        snd (handleProxyRequest env uuid sched ws_in tcp_in message tr)
        = tr ++ [logEvent h; ackEvent h; dialEvent h] ++ rest).
Proof.
  intros Hp.
  rewrite (handleProxyRequest_parsed env uuid sched ws_in tcp_in message tr h Hp).
  split; [|split; [|split]].
  - unfold ackEvent. now rewrite (parseHeader_version uuid message h Hp).
  - intros ->. reflexivity.
  - intros -> ->. reflexivity.
  - intros -> ->.
    destruct (afterDial_extends env sched ws_in tcp_in message h
                (tr ++ [logEvent h; ackEvent h; dialEvent h])) as [rest E].
    + apply parseHeader_cursor in Hp. lia.
    + exists rest. rewrite E, <- app_assoc. reflexivity.
Qed.

Lemma ack_precedes_dial_witness :
  handleProxyRequest env_unreachable example_uuid [] [] [] example_frame []
  = (Done (Error ErrConnectTarget),
     [logEvent example_header; ackEvent example_header;
      dialEvent example_header]).
Proof.
  refine (proj1 (proj2 (proj2
            (ack_precedes_dial env_unreachable example_uuid [] [] []
               example_frame [] example_header _))) _ _);
    reflexivity.
Defined.

(** C1, as stated, fails: with an unreachable target the
    acknowledgment is on the WebSocket before the dial is attempted. *)
Lemma ack_precedes_dial_counterexample :
  handleProxyRequest env_unreachable example_uuid [] [] [] example_frame []
  = (Done (Error ErrConnectTarget),
     [EvLog (LogConnectionDetails "abc" 443 x02);
      EvWsWrite BinaryMessage [x00; x00];
      EvDial "tcp" "abc:443"]).
Proof. reflexivity. Qed.

(** C8.  When the header is parsed, the acknowledgment written and
    the target dialed, the bytes from the final cursor to the end of
    the frame are written to the TCP connection, as one write and
    before either relay task is started; when there are none, nothing
    is written to the TCP side before the tasks start. *)
Theorem initial_payload_forwarded (env : Env) (uuid : string)
  (sched : list task) (ws_in : list ws_read) (tcp_in : list tcp_read)
  (message : list byte) (tr : trace) (h : header) :
  parseHeader uuid message = Ok h ->
  ws_write_ok env (tr ++ [logEvent h]) BinaryMessage [version h; x00] = true ->
  dial_ok env (tr ++ [logEvent h; ackEvent h]) "tcp" (dialAddress h) = true ->
  (initialPayload h message = [] ->
   exists rest,
     snd (handleProxyRequest env uuid sched ws_in tcp_in message tr)
     = tr ++ [logEvent h; ackEvent h; dialEvent h]
       ++ [EvGo WebSocketToTCP; EvGo TCPToWebSocket] ++ rest)
  /\ (initialPayload h message <> [] ->
      tcp_write_ok env (tr ++ [logEvent h; ackEvent h; dialEvent h])
        (initialPayload h message) = true ->
      exists rest,
        snd (handleProxyRequest env uuid sched ws_in tcp_in message tr)
        = tr ++ [logEvent h; ackEvent h; dialEvent h]
          ++ [EvTcpWrite (initialPayload h message)]
          ++ [EvGo WebSocketToTCP; EvGo TCPToWebSocket] ++ rest)
  /\ (initialPayload h message <> [] ->
      tcp_write_ok env (tr ++ [logEvent h; ackEvent h; dialEvent h])
        (initialPayload h message) = false ->
      handleProxyRequest env uuid sched ws_in tcp_in message tr
      = (Done (Error ErrWriteInitial),
         tr ++ [logEvent h; ackEvent h; dialEvent h]
         ++ [EvTcpWrite (initialPayload h message); EvTcpClose])).
Proof.
  intros Hp Hw Hd.
  rewrite (handleProxyRequest_parsed env uuid sched ws_in tcp_in message tr h Hp).
  rewrite Hw, Hd.
  assert (Hc : 0 <= cursor h <= len message)
    by (apply parseHeader_cursor in Hp; lia).
  rewrite afterDial_cases by exact Hc.
  split; [|split].
  - intros ->.
    destruct (started_extends env sched ws_in tcp_in
                (tr ++ [logEvent h; ackEvent h; dialEvent h])) as [rest E].
    exists rest. rewrite E, <- app_assoc. reflexivity.
  - intros Hne Ht. rewrite Ht.
    destruct (initialPayload h message) as [|b payload]; [contradiction|].
    destruct (started_extends env sched ws_in tcp_in
                ((tr ++ [logEvent h; ackEvent h; dialEvent h])
                 ++ [EvTcpWrite (b :: payload)])) as [rest E].
    exists rest. rewrite E, <- !app_assoc. reflexivity.
  - intros Hne Ht. rewrite Ht.
    destruct (initialPayload h message) as [|b payload]; [contradiction|].
    now rewrite <- app_assoc.
Qed.

Lemma initial_payload_forwarded_witness :
  handleProxyRequest env_no_write example_uuid [] [] [] example_frame []
  = (Done (Error ErrWriteInitial),
     [logEvent example_header; ackEvent example_header;
      dialEvent example_header; EvTcpWrite [x68; x69]; EvTcpClose]).
Proof.
  refine (proj2 (proj2
            (initial_payload_forwarded env_no_write example_uuid [] [] []
               example_frame [] example_header _ _ _)) _ _);
    try reflexivity.
  vm_compute. discriminate.
Defined.

(** C3, as the code has it.  Before the handshake a message that is
    not binary is logged and skipped: its content plays no part and
    the loop goes on with the next message.  During the relay the
    message type is not looked at: every message read from the
    WebSocket, binary or not, is written to the TCP side, unchanged,
    and nothing is logged. *)
Theorem non_binary_message (env : Env) (uuid : string) (sched : list task)
  (tcp_in : list tcp_read) (messageType : Z) (message : list byte)
  (rest : list ws_read) (tr : trace) :
  (messageType <> BinaryMessage ->
   handleWebSocket_loop env uuid sched tcp_in
     (WsMessage messageType message :: rest) tr
   = handleWebSocket_loop env uuid sched tcp_in rest
       (tr ++ [EvLog LogNonBinary]))
  /\ relay env (WebSocketToTCP :: sched)
       (WsMessage messageType message :: rest) tcp_in tr
     = if tcp_write_ok env tr message
       then relay env sched rest tcp_in (tr ++ [EvTcpWrite message])
       else (Done (Error ErrTCPWrite), tr ++ [EvTcpWrite message]).
Proof.
  split.
  - intros Hne. cbn [handleWebSocket_loop].
    replace (messageType =? BinaryMessage) with false
      by (symmetry; now apply Z.eqb_neq).
    reflexivity.
  - cbn [relay]. unfold bindM, proxyWebSocketToTCP_step, Write.
    destruct (tcp_write_ok env tr message); reflexivity.
Qed.

Lemma non_binary_message_witness :
  handleWebSocket_loop env_ok example_uuid [] []
    [WsMessage TextMessage [x68; x69]; WsReadError] []
  = handleWebSocket_loop env_ok example_uuid [] [] [WsReadError]
      [EvLog LogNonBinary].
Proof.
  refine (proj1 (non_binary_message env_ok example_uuid [] [] TextMessage
                   [x68; x69] [WsReadError] []) _).
  discriminate.
Defined.

(** C3, as stated, fails during the relay: a text message that
    follows the handshake is written to the TCP side and is not
    logged. *)
Lemma non_binary_message_counterexample :
  handleWebSocket env_ok example_uuid true [WebSocketToTCP] []
    [WsMessage BinaryMessage example_frame; WsMessage TextMessage [x42]] []
  = (Blocked,
     [EvLog LogNewConnection;
      EvLog (LogConnectionDetails "abc" 443 x02);
      EvWsWrite BinaryMessage [x00; x00];
      EvDial "tcp" "abc:443";
      EvTcpWrite [x68; x69];
      EvGo WebSocketToTCP; EvGo TCPToWebSocket;
      EvTcpWrite [x42]]).
Proof. reflexivity. Qed.

(** * Further properties of the code *)

(** ** The identifier, for every configured string *)

Lemma half_succ_succ (n : nat) : (S (S n) / 2 = S (n / 2))%nat.
Proof.
  change (S (S n)) with (1 * 2 + n)%nat.
  rewrite Nat.div_add_l by discriminate. reflexivity.
Qed.

Lemma validateUUID_from_general (uuid : string) (id : list byte) :
  forall i : nat,
    validateUUID_from uuid (Z.of_nat i) id
    = if bytes_eqb
           (firstn (pairsAvailable (drop (2 * i) uuid) id) id)
           (expectedBytes (pairsAvailable (drop (2 * i) uuid) id)
              (drop (2 * i) uuid))
      then if (List.length id <=? pairsAvailable (drop (2 * i) uuid) id)%nat
           then Ok true else Panic
      else Ok false.
Proof.
  unfold pairsAvailable.
  induction id as [|v id IH]; intros i; [reflexivity|].
  destruct (drop (2 * i) uuid) as [|c1 [|c2 rest]] eqn:Hd.
  - cbn [validateUUID_from]. rewrite str_slice_short; [reflexivity|].
    pose proof (drop_length (2 * i) uuid) as E. rewrite Hd in E.
    simpl in E. lia.
  - cbn [validateUUID_from]. rewrite str_slice_short; [reflexivity|].
    pose proof (drop_length (2 * i) uuid) as E. rewrite Hd in E.
    simpl in E. lia.
  - assert (Hd' : drop (2 * S i) uuid = rest).
    { replace (2 * S i)%nat with (2 * i + 2)%nat by lia.
      rewrite <- drop_drop, Hd. reflexivity. }
    cbn [validateUUID_from]. rewrite (str_slice_pair _ _ _ _ _ Hd).
    cbn [bind]. cbn [String.length List.length].
    rewrite half_succ_succ, <- Nat.succ_min_distr.
    cbn [firstn expectedBytes bytes_eqb Nat.leb].
    destruct (Byte.eqb v (hexToByte (String c1 (String c2 "")))); cbn [andb];
      [|reflexivity].
    replace (Z.of_nat i + 1) with (Z.of_nat (S i)) by lia.
    rewrite IH, Hd'. reflexivity.
Qed.

(** X1.  [validateUUID] on any configured string and any candidate:
    the candidate is compared, byte by byte, with the character pairs
    the string has; the first difference rejects it; if the string
    runs out before the candidate does and every pair so far agreed,
    the comparison panics; otherwise the candidate is accepted. *)
Theorem validateUUID_every_string (uuid : string) (id : list byte) :
  validateUUID uuid id
  = if bytes_eqb (firstn (pairsAvailable uuid id) id)
         (expectedBytes (pairsAvailable uuid id) uuid)
    then if (List.length id <=? pairsAvailable uuid id)%nat
         then Ok true else Panic
    else Ok false.
Proof.
  unfold validateUUID. change 0 with (Z.of_nat 0).
  apply (validateUUID_from_general uuid id 0).
Qed.

Lemma string_length_append (s t : string) :
  String.length (s +++ t) = (String.length s + String.length t)%nat.
Proof. induction s as [|c s IH]; simpl; auto. Qed.

Lemma expectedBytes_append (n : nat) (s t : string) :
  (2 * n <= String.length s)%nat ->
  expectedBytes n (s +++ t) = expectedBytes n s.
Proof.
  revert s. induction n as [|n IH]; intros s H; [reflexivity|].
  destruct s as [|c1 [|c2 rest]]; simpl in H; try lia.
  cbn [String.append expectedBytes]. f_equal. apply IH. lia.
Qed.

(** X2.  Only the first 32 characters of the configured string count:
    whatever follows them changes neither the identifier nor the
    answer of [validateUUID]. *)
Theorem validateUUID_ignores_tail (uuid extra : string) (id : list byte) :
  (32 <= String.length uuid)%nat ->
  List.length id = 16%nat ->
  Identifier (uuid +++ extra) = Identifier uuid
  /\ validateUUID (uuid +++ extra) id = validateUUID uuid id.
Proof.
  intros Hu Hid.
  assert (E : Identifier (uuid +++ extra) = Identifier uuid)
    by (apply expectedBytes_append; lia).
  split; [exact E|].
  rewrite !validateUUID_Identifier, E; auto.
  rewrite string_length_append. lia.
Qed.

Lemma validateUUID_ignores_tail_witness :
  validateUUID (example_uuid +++ "-and-more") example_id
  = validateUUID example_uuid example_id.
Proof.
  refine (proj2 (validateUUID_ignores_tail example_uuid "-and-more"
                   example_id _ _)).
  - apply Nat.leb_le. reflexivity.
  - reflexivity.
Defined.

(** ** Hexadecimal text and back *)

Lemma hexToByte_hexdigits (b : byte) :
  hexToByte
    (String (net.hexdigit (Z.shiftr (int b) 4))
       (String (net.hexdigit (Z.land (int b) 15)) ""))
  = b.
Proof. destruct b; vm_compute; reflexivity. Qed.

Lemma hexdigits_not_hyphen (b : byte) :
  (net.hexdigit (Z.shiftr (int b) 4) =? "-")%char = false
  /\ (net.hexdigit (Z.land (int b) 15) =? "-")%char = false.
Proof. destruct b; vm_compute; split; reflexivity. Qed.

Lemma expectedBytes_hexString (l : list byte) :
  expectedBytes (List.length l) (net.hexString l) = l.
Proof.
  induction l as [|b l IH]; [reflexivity|].
  cbn [List.length net.hexString fold_right expectedBytes].
  rewrite hexToByte_hexdigits. f_equal. exact IH.
Qed.

Lemma hexString_length (l : list byte) :
  String.length (net.hexString l) = (2 * List.length l)%nat.
Proof.
  induction l as [|b l IH]; [reflexivity|].
  cbn [List.length net.hexString fold_right String.length].
  unfold net.hexString in IH. rewrite IH. lia.
Qed.

Lemma ReplaceAll_hexString (l : list byte) :
  strings.ReplaceAll_hyphen (net.hexString l) = net.hexString l.
Proof.
  induction l as [|b l IH]; [reflexivity|].
  cbn [net.hexString fold_right strings.ReplaceAll_hyphen].
  destruct (hexdigits_not_hyphen b) as [-> ->].
  unfold net.hexString in IH. now rewrite IH.
Qed.

(** X3.  From bytes to configuration and back: when the configured
    value is the lower-case hexadecimal text of a 16-byte identifier,
    two digits a byte, [init] keeps it as it is and [validateUUID]
    accepts that identifier and rejects every other 16-byte
    candidate. *)
Theorem configured_hex_text_accepted (id candidate : list byte) :
  List.length id = 16%nat ->
  List.length candidate = 16%nat ->
  init (net.hexString id) = net.hexString id
  /\ Identifier (init (net.hexString id)) = id
  /\ validateUUID (init (net.hexString id)) candidate
     = Ok (bytes_eqb candidate id).
Proof.
  intros Hid Hc.
  assert (Hi : init (net.hexString id) = net.hexString id).
  { unfold init. destruct id as [|b id]; [discriminate Hid|].
    cbn [net.hexString fold_right String.eqb].
    fold (net.hexString id).
    change (String (net.hexdigit (Z.shiftr (int b) 4))
              (String (net.hexdigit (Z.land (int b) 15)) (net.hexString id)))
      with (net.hexString (b :: id)).
    apply ReplaceAll_hexString. }
  assert (HI : Identifier (net.hexString id) = id).
  { unfold Identifier. rewrite <- Hid at 1. apply expectedBytes_hexString. }
  rewrite Hi. split; [reflexivity|]. split; [exact HI|].
  rewrite validateUUID_Identifier, HI; auto.
  rewrite hexString_length. lia.
Qed.

Lemma configured_hex_text_accepted_witness :
  validateUUID (init (net.hexString example_id)) example_id = Ok true.
Proof.
  refine (proj2 (proj2 (configured_hex_text_accepted example_id example_id
                          _ _))); reflexivity.
Defined.

(** ** The hyphenated form *)

Lemma ReplaceAll_append (s t : string) :
  strings.ReplaceAll_hyphen (s +++ t)
  = strings.ReplaceAll_hyphen s +++ strings.ReplaceAll_hyphen t.
Proof.
  induction s as [|c s IH]; [reflexivity|].
  cbn [String.append strings.ReplaceAll_hyphen].
  destruct (c =? "-")%char; [exact IH|]. cbn [String.append]. now rewrite IH.
Qed.

Lemma ReplaceAll_allHex (s : string) :
  allHex s = true -> strings.ReplaceAll_hyphen s = s.
Proof.
  induction s as [|c s IH]; [reflexivity|].
  cbn [allHex strings.ReplaceAll_hyphen]. intros H.
  apply andb_true_iff in H. destruct H as [Hc Hs].
  destruct (c =? "-")%char eqn:E.
  - apply Ascii.eqb_eq in E. subst c. discriminate Hc.
  - now rewrite IH.
Qed.

Lemma allHex_append (s t : string) :
  allHex (s +++ t) = allHex s && allHex t.
Proof.
  induction s as [|c s IH]; [reflexivity|].
  cbn [String.append allHex]. now rewrite IH, andb_assoc.
Qed.

Lemma append_assoc (s t u : string) : (s +++ t) +++ u = s +++ t +++ u.
Proof. induction s as [|c s IH]; simpl; [reflexivity | now rewrite IH]. Qed.

(** X4.  An identifier configured in the usual hyphenated form, groups
    of 8, 4, 4, 4 and 12 hexadecimal digits, becomes at start-up the
    32 digits without the hyphens, a well-formed identifier string
    whose bytes are its hexadecimal value. *)
Theorem init_hyphenated (a b c d e : string) :
  allHex a = true -> allHex b = true -> allHex c = true ->
  allHex d = true -> allHex e = true ->
  String.length a = 8%nat -> String.length b = 4%nat ->
  String.length c = 4%nat -> String.length d = 4%nat ->
  String.length e = 12%nat ->
  init (hyphenated a b c d e) = a +++ b +++ c +++ d +++ e
  /\ wellFormedHex32 (init (hyphenated a b c d e))
  /\ Identifier (init (hyphenated a b c d e))
     = literalHexValue (a +++ b +++ c +++ d +++ e).
Proof.
  intros Ha Hb Hc Hd He La Lb Lc Ld Le.
  assert (Hi : init (hyphenated a b c d e) = a +++ b +++ c +++ d +++ e).
  { assert (Hne : (hyphenated a b c d e =? "")%string = false)
      by (destruct a; [discriminate La | reflexivity]).
    unfold init. rewrite Hne. unfold hyphenated.
    rewrite !ReplaceAll_append.
    rewrite (ReplaceAll_allHex _ Ha), (ReplaceAll_allHex _ Hb),
      (ReplaceAll_allHex _ Hc), (ReplaceAll_allHex _ Hd),
      (ReplaceAll_allHex _ He).
    reflexivity. }
  assert (Hw : wellFormedHex32 (a +++ b +++ c +++ d +++ e)).
  { split.
    - rewrite !string_length_append. lia.
    - rewrite !allHex_append, Ha, Hb, Hc, Hd, He. reflexivity. }
  rewrite Hi. split; [reflexivity|]. split; [exact Hw|].
  now apply Identifier_wellFormed.
Qed.

Lemma init_hyphenated_witness :
  init (hyphenated "12345678" "9abc" "def0" "1234" "56789ABCDEF0")
  = example_uuid.
Proof.
  refine (proj1 (init_hyphenated "12345678" "9abc" "def0" "1234"
                   "56789ABCDEF0" _ _ _ _ _ _ _ _ _ _));
    reflexivity.
Defined.

(** ** What a parsed header tells about the frame *)

Lemma parseHeader_inv (uuid : string) (m : list byte) (h : header) :
  parseHeader uuid m = Ok h ->
  18 <= len m
  /\ validateUUID uuid (firstn 16 (skipn 1 m)) = Ok true
  /\ 22 + addonLength m <= len m
  /\ decodeAddress m (nth (Z.to_nat (21 + addonLength m)) m x00)
       (22 + addonLength m) = Ok (host h, cursor h)
  /\ targetPort h
     = int (nth (Z.to_nat (19 + addonLength m)) m x00) * 256
       + int (nth (Z.to_nat (20 + addonLength m)) m x00)
  /\ atyp h = nth (Z.to_nat (21 + addonLength m)) m x00
  /\ version h = nth 0 m x00.
Proof.
  intros H.
  assert (H18 : 18 <= len m).
  { unfold parseHeader in H.
    destruct (Z.ltb_spec (len m) 18); [discriminate H | assumption]. }
  assert (Hv : validateUUID uuid (firstn 16 (skipn 1 m)) = Ok true).
  { unfold parseHeader in H. revert H. decide_ltb.
    rewrite index_ok by lia. cbn [bind]. rewrite slice_ok by lia. cbn [bind].
    change (Z.to_nat (17 - 1)) with 16%nat. change (Z.to_nat 1) with 1%nat.
    destruct (validateUUID uuid _) as [[|]| |]; cbn [bind negb];
      try discriminate. reflexivity. }
  rewrite (parseHeader_authenticated uuid m H18 Hv) in H.
  destruct (Z.lt_ge_cases (len m) (22 + addonLength m)) as [Hlt|Hge].
  { rewrite readPortAndType_short in H by assumption. discriminate H. }
  rewrite readPortAndType_ok in H by assumption. cbn [bind] in H.
  destruct (decodeAddress m _ _) as [[hst i]| |] eqn:Ed; cbn [bind] in H;
    try discriminate H.
  injection H as <-. cbn [host cursor targetPort atyp version].
  repeat split; auto.
Qed.

Lemma decodeAddress_inv (m : list byte) (a : byte) (i : Z) (hst : string)
  (i' : Z) :
  0 <= i ->
  decodeAddress m a i = Ok (hst, i') ->
  i' <= len m
  /\ ((int a = 1 /\ i' = i + 4)
      \/ (int a = 2 /\ i' = i + 1 + int (nth (Z.to_nat i) m x00))
      \/ (int a = 3 /\ i' = i + 16)).
Proof.
  intros Hi. unfold decodeAddress.
  destruct (int a) as [|[[p|p|]|[p|p|]|]|p]; try discriminate.
  - destruct (Z.ltb_spec (len m) (i + 16)); [discriminate|].
    rewrite slice_ok by lia. cbn [bind].
    intros E. injection E as _ <-. split; [lia|]. right. right. lia.
  - destruct (Z.ltb_spec (len m) (i + 1)); [discriminate|].
    rewrite index_ok by lia. cbn [bind].
    pose proof (int_range (nth (Z.to_nat i) m x00)).
    destruct (Z.ltb_spec (len m) (i + 1 + int (nth (Z.to_nat i) m x00)));
      [discriminate|].
    rewrite slice_ok by lia. cbn [bind].
    intros E. injection E as _ <-. split; [lia|]. right. left. lia.
  - destruct (Z.ltb_spec (len m) (i + 4)); [discriminate|].
    rewrite slice_ok by lia. cbn [bind].
    intros E. injection E as _ <-. split; [lia|]. left. lia.
Qed.

(** X5.  Every header that parses has: the version of byte 0; a port
    between 0 and 65535; an address type 1, 2 or 3; and a final cursor
    inside the frame, at [26 + N], [23 + N + L] or [38 + N] for the
    three types, [N] the addon length and [L] the length byte of the
    domain name. *)
Theorem parsed_header_bounds (uuid : string) (message : list byte) (h : header) :
  parseHeader uuid message = Ok h ->
  version h = nth 0 message x00
  /\ 0 <= targetPort h <= 65535
  /\ cursor h <= len message
  /\ ((int (atyp h) = 1 /\ cursor h = 26 + addonLength message)
      \/ (int (atyp h) = 2
          /\ cursor h
             = 23 + addonLength message
               + int (nth (Z.to_nat (22 + addonLength message)) message x00))
      \/ (int (atyp h) = 3 /\ cursor h = 38 + addonLength message)).
Proof.
  intros H.
  destruct (parseHeader_inv uuid message h H)
    as (H18 & Hv & Hl & Hd & Hp & Ha & Hver).
  pose proof (int_range (nth 17 message x00)) as HN.
  fold (addonLength message) in HN.
  apply decodeAddress_inv in Hd; [|lia].
  destruct Hd as (Hc & Hk). rewrite <- Ha in Hk.
  split; [exact Hver|]. split.
  - rewrite Hp.
    pose proof (int_range (nth (Z.to_nat (19 + addonLength message)) message x00)).
    pose proof (int_range (nth (Z.to_nat (20 + addonLength message)) message x00)).
    lia.
  - split; [exact Hc|].
    destruct Hk as [[? ?]|[[? ?]|[? ?]]]; [left|right; left|right; right];
      split; auto; lia.
Qed.

Lemma parsed_header_bounds_witness :
  0 <= targetPort example_header <= 65535.
Proof.
  refine (proj1 (proj2 (parsed_header_bounds example_uuid example_frame
                          example_header _))).
  reflexivity.
Defined.

(** ** Panics *)

Lemma decodeAddress_no_panic (m : list byte) (a : byte) (i : Z) :
  0 <= i -> decodeAddress m a i <> Panic.
Proof.
  intros Hi. unfold decodeAddress.
  destruct (int a) as [|[[p|p|]|[p|p|]|]|p]; try discriminate.
  - destruct (Z.ltb_spec (len m) (i + 16)); [discriminate|].
    rewrite slice_ok by lia. discriminate.
  - destruct (Z.ltb_spec (len m) (i + 1)); [discriminate|].
    rewrite index_ok by lia. cbn [bind].
    pose proof (int_range (nth (Z.to_nat i) m x00)).
    destruct (Z.ltb_spec (len m) (i + 1 + int (nth (Z.to_nat i) m x00)));
      [discriminate|].
    rewrite slice_ok by lia. discriminate.
  - destruct (Z.ltb_spec (len m) (i + 4)); [discriminate|].
    rewrite slice_ok by lia. discriminate.
Qed.

(** The parser panics only where the comparison of the identifier
    does. *)
Lemma parseHeader_panic (uuid : string) (m : list byte) :
  parseHeader uuid m = Panic ->
  18 <= len m /\ validateUUID uuid (firstn 16 (skipn 1 m)) = Panic.
Proof.
  intros H. unfold parseHeader in H.
  destruct (Z.ltb_spec (len m) 18); [discriminate H|].
  split; [assumption|]. revert H.
  rewrite index_ok by lia. cbn [bind]. rewrite slice_ok by lia. cbn [bind].
  change (Z.to_nat (17 - 1)) with 16%nat. change (Z.to_nat 1) with 1%nat.
  destruct (validateUUID uuid _) as [[|]| |] eqn:Ev; cbn [bind negb];
    try discriminate; [|reflexivity].
  intros H. exfalso.
  pose proof (int_range (nth 17 m x00)) as HN.
  destruct (Z.lt_ge_cases (len m) (22 + addonLength m)) as [Hlt|Hge].
  - rewrite readPortAndType_short in H by assumption. discriminate H.
  - rewrite readPortAndType_ok in H by assumption. cbn [bind] in H.
    destruct (decodeAddress m _ _) as [[hst i]| |] eqn:Ed; cbn [bind] in H;
      try discriminate H.
    apply decodeAddress_no_panic in Ed; [exact Ed|].
    unfold addonLength. lia.
Qed.

Lemma parseHeader_no_panic (uuid : string) (m : list byte) :
  (32 <= String.length uuid)%nat -> parseHeader uuid m <> Panic.
Proof.
  intros Hu H. apply parseHeader_panic in H. destruct H as [H18 H].
  rewrite validateUUID_Identifier in H; [discriminate H|exact Hu|].
  rewrite length_firstn, length_skipn. unfold len in H18. lia.
Qed.

(** X6.  Some frame makes the parser panic exactly when the
    configured string has fewer than 32 characters; with 32 or more,
    no frame does. *)
Theorem parser_panics_iff_short_identifier (uuid : string) :
  (exists message : list byte, parseHeader uuid message = Panic)
  <-> (String.length uuid < 32)%nat.
Proof.
  split.
  - intros [m H]. destruct (Nat.lt_ge_cases (String.length uuid) 32) as [Hs|Hl];
      [exact Hs|]. now apply parseHeader_no_panic in H.
  - intros Hs. destruct (validateUUID_short_panics uuid Hs) as (id & Hid & Hp).
    exists (x00 :: id ++ [x00]).
    assert (Hlen : len (x00 :: id ++ [x00]) = 18).
    { unfold len. cbn [List.length]. rewrite length_app, Hid. reflexivity. }
    unfold parseHeader. rewrite Hlen. cbn [Z.ltb Z.compare Pos.compare Pos.compare_cont].
    rewrite index_ok by lia. cbn [bind]. rewrite slice_ok by lia. cbn [bind].
    change (Z.to_nat (17 - 1)) with 16%nat. change (Z.to_nat 1) with 1%nat.
    cbn [skipn]. rewrite firstn_app, Hid, Nat.sub_diag.
    rewrite firstn_all2 by lia. cbn [firstn]. rewrite app_nil_r, Hp.
    reflexivity.
Qed.

(** ** Frames built field by field *)

Section Frame.

Variables (uuid : string) (v : byte) (id : list byte) (n cmd : byte)
  (addon : list byte) (hi lo : byte).
Hypothesis Hid : List.length id = 16%nat.
Hypothesis Haddon : List.length addon = Z.to_nat (int n).
Hypothesis Hvalid : validateUUID uuid id = Ok true.

Lemma frame_fixed_length : len (v :: id ++ n :: cmd :: addon) = 19 + int n.
Proof.
  unfold len. cbn [List.length]. rewrite length_app. cbn [List.length].
  pose proof (int_range n). lia.
Qed.

Lemma frame_split (ty : byte) (rest : list byte) :
  frame v id n cmd addon hi lo ty rest
  = ((v :: id ++ n :: cmd :: addon) ++ [hi; lo; ty]) ++ rest.
Proof. unfold frame. now rewrite <- app_assoc. Qed.

Lemma frame_header_length (ty : byte) :
  len ((v :: id ++ n :: cmd :: addon) ++ [hi; lo; ty]) = 22 + int n.
Proof.
  rewrite len_app, frame_fixed_length. change (len [hi; lo; ty]) with 3. lia.
Qed.

Lemma frame_length (ty : byte) (rest : list byte) :
  len (frame v id n cmd addon hi lo ty rest) = 22 + int n + len rest.
Proof. now rewrite frame_split, len_app, frame_header_length. Qed.

Lemma frame_identifier (ty : byte) (rest : list byte) :
  firstn 16 (skipn 1 (frame v id n cmd addon hi lo ty rest)) = id.
Proof.
  unfold frame. cbn [app skipn]. rewrite <- app_assoc.
  rewrite firstn_app, Hid, Nat.sub_diag, firstn_O, app_nil_r.
  apply firstn_all2. lia.
Qed.

Lemma frame_addon_length (ty : byte) (rest : list byte) :
  addonLength (frame v id n cmd addon hi lo ty rest) = int n.
Proof.
  unfold addonLength, frame. cbn [app]. rewrite <- app_assoc.
  change 17%nat with (S (16 + 0)). cbn [nth]. rewrite <- Hid.
  rewrite nth_app_exact. reflexivity.
Qed.

Lemma frame_readPortAndType (ty : byte) (rest : list byte) :
  readPortAndType (frame v id n cmd addon hi lo ty rest)
  = Ok (int hi * 256 + int lo, ty, 22 + int n).
Proof.
  pose proof (int_range n) as Hn. pose proof (len_nonneg rest).
  pose proof (frame_length ty rest) as Hl.
  pose proof (frame_addon_length ty rest) as HN.
  unfold readPortAndType.
  rewrite index_ok by lia. cbn [bind]. change (Z.to_nat 17) with 17%nat.
  fold (addonLength (frame v id n cmd addon hi lo ty rest)). rewrite HN.
  decide_ltb.
  unfold frame at 1.
  replace (int n + 19) with (len (v :: id ++ n :: cmd :: addon))
    by (rewrite frame_fixed_length; lia).
  rewrite slice_after
    by (unfold len; cbn [List.length]; pose proof (len_nonneg rest); lia).
  change (Z.to_nat 2) with 2%nat. cbn [firstn bind].
  rewrite BigEndian_Uint16_value. cbn [bind].
  unfold frame.
  change (hi :: lo :: ty :: rest) with ([hi; lo] ++ ty :: rest).
  rewrite app_assoc.
  replace (len (v :: id ++ n :: cmd :: addon) + 2)
    with (len ((v :: id ++ n :: cmd :: addon) ++ [hi; lo]))
    by (rewrite len_app; reflexivity).
  rewrite index_after
    by (unfold len; cbn [List.length]; lia).
  cbn [bind nth]. rewrite len_app, frame_fixed_length.
  change (len [hi; lo]) with 2.
  replace (19 + int n + 2 + 1) with (22 + int n) by lia.
  reflexivity.
Qed.

(** A frame so built passes the fixed part of the parser; what is
    left is the switch on the address type, entered at [22 + N]. *)
Lemma frame_parse (ty : byte) (rest : list byte) :
  parseHeader uuid (frame v id n cmd addon hi lo ty rest)
  = bind (decodeAddress
            (((v :: id ++ n :: cmd :: addon) ++ [hi; lo; ty]) ++ rest) ty
            (len ((v :: id ++ n :: cmd :: addon) ++ [hi; lo; ty])))
      (fun '(host, i) =>
         Ok (mkHeader v host (int hi * 256 + int lo) ty i)).
Proof.
  pose proof (int_range n) as Hn. pose proof (len_nonneg rest).
  rewrite parseHeader_authenticated.
  - rewrite frame_readPortAndType. cbn [bind].
    rewrite frame_header_length, <- frame_split. reflexivity.
  - rewrite frame_length. lia.
  - rewrite frame_identifier. exact Hvalid.
Qed.

End Frame.

Lemma decodeAddress_IPv4_after (pre rest : list byte) :
  decodeAddress (pre ++ rest) x01 (len pre)
  = match rest with
    | a :: b :: c :: d :: _ => Ok (dottedDecimal a b c d, len pre + 4)
    | _ => Error ErrTooShortIPv4
    end.
Proof. exact (decode_IPv4 pre rest). Qed.

Lemma decodeAddress_domain_after (pre rest : list byte) :
  decodeAddress (pre ++ rest) x02 (len pre)
  = match rest with
    | [] => Error ErrTooShortDomainLength
    | l :: name =>
        if len name <? int l then Error ErrTooShortDomainName
        else Ok (string_of_list_byte (firstn (Z.to_nat (int l)) name),
                 len pre + 1 + int l)
    end.
Proof. exact (decode_domain pre rest). Qed.

Lemma decodeAddress_IPv6_after (pre rest : list byte) :
  decodeAddress (pre ++ rest) x03 (len pre)
  = if len rest <? 16 then Error ErrTooShortIPv6
    else Ok (ipText16 (firstn 16 rest), len pre + 16).
Proof. exact (decode_IPv6 pre rest). Qed.

Lemma initialPayload_after (h : header) (pre payload : list byte) :
  cursor h = len pre -> initialPayload h (pre ++ payload) = payload.
Proof.
  intros E. unfold initialPayload. rewrite E, to_nat_len.
  apply skipn_app_exact.
Qed.

(** X7.  A frame built field by field, whose identifier the
    comparison accepts and whose addon region has the length its
    length byte says, parses to those fields: for type 1 the host is
    the four address bytes in dotted decimal, for type 2 the [L]
    bytes of the name, for type 3 the text of the sixteen address
    bytes; the port is the two port bytes, most significant first;
    and the initial payload is exactly what follows the address. *)
Theorem built_frame_parses (uuid : string) (v : byte) (id : list byte)
  (n cmd : byte) (addon : list byte) (hi lo : byte) (payload : list byte) :
  List.length id = 16%nat ->
  List.length addon = Z.to_nat (int n) ->
  validateUUID uuid id = Ok true ->
  (forall a b c d : byte,
      exists h,
        parseHeader uuid
          (frame v id n cmd addon hi lo x01 (a :: b :: c :: d :: payload))
        = Ok h
        /\ h = mkHeader v (dottedDecimal a b c d) (int hi * 256 + int lo) x01
                 (26 + int n)
        /\ initialPayload h
             (frame v id n cmd addon hi lo x01 (a :: b :: c :: d :: payload))
           = payload)
  /\ (forall (l : byte) (name : list byte),
        List.length name = Z.to_nat (int l) ->
        exists h,
          parseHeader uuid
            (frame v id n cmd addon hi lo x02 (l :: name ++ payload))
          = Ok h
          /\ h = mkHeader v (string_of_list_byte name)
                   (int hi * 256 + int lo) x02 (23 + int n + int l)
          /\ initialPayload h
               (frame v id n cmd addon hi lo x02 (l :: name ++ payload))
             = payload)
  /\ (forall ip : list byte,
        List.length ip = 16%nat ->
        exists h,
          parseHeader uuid (frame v id n cmd addon hi lo x03 (ip ++ payload))
          = Ok h
          /\ h = mkHeader v (ipText16 ip) (int hi * 256 + int lo) x03
                   (38 + int n)
          /\ initialPayload h
               (frame v id n cmd addon hi lo x03 (ip ++ payload))
             = payload).
Proof.
  intros Hid Haddon Hvalid.
  pose proof (int_range n) as Hn.
  split; [|split].
  - intros a b c d. eexists. split; [|split; [reflexivity|]].
    + rewrite (frame_parse uuid v id n cmd addon hi lo Hid Haddon Hvalid).
      rewrite decodeAddress_IPv4_after. cbn [bind].
      rewrite frame_header_length by assumption.
      replace (22 + int n + 4) with (26 + int n) by lia. reflexivity.
    + rewrite frame_split.
      change (a :: b :: c :: d :: payload) with ([a; b; c; d] ++ payload).
      rewrite app_assoc. apply initialPayload_after. cbn [cursor].
      rewrite len_app, frame_header_length by assumption.
      change (len [a; b; c; d]) with 4. lia.
  - intros l name Hname. pose proof (int_range l) as Hl.
    eexists. split; [|split; [reflexivity|]].
    + rewrite (frame_parse uuid v id n cmd addon hi lo Hid Haddon Hvalid).
      rewrite decodeAddress_domain_after.
      replace (len (name ++ payload) <? int l) with false
        by (symmetry; apply Z.ltb_ge; rewrite len_app;
            pose proof (len_nonneg payload); unfold len; lia).
      cbn [bind]. rewrite frame_header_length by assumption.
      rewrite <- Hname, firstn_app, Nat.sub_diag, firstn_all.
      rewrite firstn_O, app_nil_r.
      replace (22 + int n + 1 + int l) with (23 + int n + int l) by lia.
      reflexivity.
    + rewrite frame_split.
      change (l :: name ++ payload) with ((l :: name) ++ payload).
      rewrite app_assoc. apply initialPayload_after. cbn [cursor].
      rewrite len_app, frame_header_length by assumption.
      unfold len. cbn [List.length]. lia.
  - intros ip Hip. eexists. split; [|split; [reflexivity|]].
    + rewrite (frame_parse uuid v id n cmd addon hi lo Hid Haddon Hvalid).
      rewrite decodeAddress_IPv6_after.
      replace (len (ip ++ payload) <? 16) with false
        by (symmetry; apply Z.ltb_ge; rewrite len_app;
            pose proof (len_nonneg payload); unfold len; lia).
      cbn [bind]. rewrite frame_header_length by assumption.
      rewrite <- Hip at 1. rewrite firstn_app, Nat.sub_diag, firstn_all.
      rewrite firstn_O, app_nil_r.
      replace (22 + int n + 16) with (38 + int n) by lia. reflexivity.
    + rewrite frame_split, app_assoc. apply initialPayload_after.
      cbn [cursor]. rewrite len_app, frame_header_length by assumption.
      unfold len. lia.
Qed.

Lemma built_frame_parses_witness :
  exists h,
    parseHeader example_uuid
      (frame x00 example_id x02 x01 [xaa; xbb] x01 xbb x02
         (x03 :: [x61; x62; x63] ++ [x68; x69]))
    = Ok h
    /\ h = mkHeader x00 (string_of_list_byte [x61; x62; x63])
             (int x01 * 256 + int xbb) x02 (23 + int x02 + int x03)
    /\ initialPayload h
         (frame x00 example_id x02 x01 [xaa; xbb] x01 xbb x02
            (x03 :: [x61; x62; x63] ++ [x68; x69]))
       = [x68; x69].
Proof.
  refine (proj1 (proj2 (built_frame_parses example_uuid x00 example_id x02 x01
                          [xaa; xbb] x01 xbb [x68; x69] _ _ _))
            x03 [x61; x62; x63] _);
    reflexivity.
Defined.

(** ** What the relay writes *)

Lemma prefixOf_nil {A : Type} (l : list A) : prefixOf [] l.
Proof. now exists l. Qed.

Lemma prefixOf_cons {A : Type} (x : A) (l1 l2 : list A) :
  prefixOf l1 l2 -> prefixOf (x :: l1) (x :: l2).
Proof. intros [r E]. exists r. simpl. now rewrite E. Qed.

Lemma prefixOf_app {A : Type} (a l1 l2 : list A) :
  prefixOf l1 l2 -> prefixOf (a ++ l1) (a ++ l2).
Proof. intros [r E]. exists r. now rewrite <- app_assoc, E. Qed.

Lemma tcpWrites_app (a b : trace) : tcpWrites (a ++ b) = tcpWrites a ++ tcpWrites b.
Proof.
  induction a as [|e a IH]; [reflexivity|].
  destruct e; cbn [app tcpWrites]; rewrite IH; reflexivity.
Qed.

Lemma wsWrites_app (a b : trace) : wsWrites (a ++ b) = wsWrites a ++ wsWrites b.
Proof.
  induction a as [|e a IH]; [reflexivity|].
  destruct e; cbn [app wsWrites]; rewrite IH; reflexivity.
Qed.

Lemma count_app (f : event -> bool) (a b : trace) :
  count f (a ++ b) = (count f a + count f b)%nat.
Proof. unfold count. now rewrite filter_app, length_app. Qed.

Lemma count_data (l : trace) :
  forallb isData l = true ->
  count isDial l = 0%nat /\ count isTcpClose l = 0%nat
  /\ count isWsClose l = 0%nat.
Proof.
  induction l as [|e l IH]; [now repeat split|].
  cbn [forallb]. intros H. apply andb_true_iff in H. destruct H as [He Hl].
  destruct (IH Hl) as (H1 & H2 & H3).
  destruct e; try discriminate He; unfold count in *; cbn [filter isDial
    isTcpClose isWsClose]; auto.
Qed.

(** What a read of the target returns comes off the front of what the
    target has ready, at most 4096 bytes of it. *)
Lemma Read_data (tcp_in tcp_in' : list tcp_read) (chunk : list byte) :
  Read tcp_in = Some (Some chunk, tcp_in') ->
  tcpBytes tcp_in = chunk ++ tcpBytes tcp_in' /\ len chunk <= 4096.
Proof.
  destruct tcp_in as [|[data|] rest]; try discriminate.
  unfold Read.
  pose proof (firstn_skipn 4096 data) as Hfs.
  pose proof (firstn_le_length 4096 data) as Hle.
  set (front := firstn 4096 data) in *.
  set (back := skipn 4096 data) in *.
  clearbody front back.
  intros E. injection E as <- <-. split.
  - cbn [tcpBytes]. rewrite <- Hfs, <- app_assoc. f_equal.
    destruct back; reflexivity.
  - unfold len. lia.
Qed.

Lemma relay_invariant (env : Env) (sched : list task) :
  forall (ws_in : list ws_read) (tcp_in : list tcp_read) (tr : trace),
  exists rest,
    snd (relay env sched ws_in tcp_in tr) = tr ++ rest
    /\ forallb isData rest = true
    /\ prefixOf (tcpWrites rest) (wsPayloads ws_in)
    /\ prefixOf (List.concat (map snd (wsWrites rest))) (tcpBytes tcp_in)
    /\ Forall (fun w => fst w = BinaryMessage /\ len (snd w) <= 4096)
         (wsWrites rest)
    /\ (fst (relay env sched ws_in tcp_in tr) = Blocked
        \/ exists e, fst (relay env sched ws_in tcp_in tr) = Done (Error e)
                     /\ relayError e).
Proof.
  unfold relayError.
  induction sched as [|t sched IH]; intros ws_in tcp_in tr.
  - exists []. cbn [relay blocked fst snd]. rewrite app_nil_r.
    repeat split; auto using prefixOf_nil.
  - destruct t; cbn [relay].
    + destruct ws_in as [|[mt message|] ws_in']; [apply IH| |].
      * unfold bindM, proxyWebSocketToTCP_step, Write.
        destruct (tcp_write_ok env tr message).
        -- destruct (IH ws_in' tcp_in (tr ++ [EvTcpWrite message]))
             as (rest & E & Hd & Ht & Hw & Hf & Ho).
           exists (EvTcpWrite message :: rest). rewrite E, <- app_assoc.
           cbn [forallb isData andb tcpWrites wsWrites wsPayloads].
           repeat split; auto using prefixOf_cons.
        -- exists [EvTcpWrite message].
           cbn [fst snd forallb isData andb tcpWrites wsWrites wsPayloads
                map List.concat].
           repeat split; auto using prefixOf_cons, prefixOf_nil.
           right. exists ErrTCPWrite. auto.
      * exists []. cbn [fail fst snd bindM proxyWebSocketToTCP_step].
        unfold bindM, fail. cbn [fst snd]. rewrite app_nil_r.
        repeat split; auto using prefixOf_nil.
        right. exists ErrWebSocketRead. auto.
    + destruct (Read tcp_in) as [[[chunk|] tcp_in']|] eqn:Er; [| |apply IH].
      * destruct (Read_data _ _ _ Er) as [Eb Hc].
        unfold bindM, proxyTCPToWebSocket_step, WriteMessage.
        destruct (ws_write_ok env tr BinaryMessage chunk).
        -- destruct (IH ws_in tcp_in' (tr ++ [EvWsWrite BinaryMessage chunk]))
             as (rest & E & Hd & Ht & Hw & Hf & Ho).
           exists (EvWsWrite BinaryMessage chunk :: rest).
           rewrite E, <- app_assoc.
           cbn [forallb isData andb tcpWrites wsWrites map List.concat snd].
           rewrite Eb.
           repeat split; auto using prefixOf_app.
        -- exists [EvWsWrite BinaryMessage chunk].
           cbn [fst snd forallb isData andb tcpWrites wsWrites map List.concat].
           rewrite Eb, app_nil_r.
           repeat split; auto using prefixOf_nil.
           ++ exists (tcpBytes tcp_in'). reflexivity.
           ++ right. exists ErrWebSocketWrite. auto.
      * exists []. unfold bindM, proxyTCPToWebSocket_step, fail.
        cbn [fst snd]. rewrite app_nil_r.
        repeat split; auto using prefixOf_nil.
        right. exists ErrTCPRead. auto.
Qed.

Lemma started_invariant (env : Env) (sched : list task) (ws_in : list ws_read)
  (tcp_in : list tcp_read) (tr : trace) :
  exists added,
    snd (defer EvTcpClose
           (emit (EvGo WebSocketToTCP) ;;
            emit (EvGo TCPToWebSocket) ;;
            relay env sched ws_in tcp_in)%io tr)
    = tr ++ added
    /\ prefixOf (tcpWrites added) (wsPayloads ws_in)
    /\ prefixOf (List.concat (map snd (wsWrites added))) (tcpBytes tcp_in)
    /\ Forall (fun w => fst w = BinaryMessage /\ len (snd w) <= 4096)
         (wsWrites added)
    /\ count isDial added = 0%nat
    /\ count isWsClose added = 0%nat
    /\ ((fst (defer EvTcpClose
                (emit (EvGo WebSocketToTCP) ;;
                 emit (EvGo TCPToWebSocket) ;;
                 relay env sched ws_in tcp_in)%io tr) = Blocked
         /\ count isTcpClose added = 0%nat)
        \/ (exists e,
               fst (defer EvTcpClose
                      (emit (EvGo WebSocketToTCP) ;;
                       emit (EvGo TCPToWebSocket) ;;
                       relay env sched ws_in tcp_in)%io tr) = Done (Error e)
               /\ exists mid, added = mid ++ [EvTcpClose]
                              /\ count isTcpClose mid = 0%nat)).
Proof.
  unfold defer, bindM, emit.
  destruct (relay_invariant env sched ws_in tcp_in
              ((tr ++ [EvGo WebSocketToTCP]) ++ [EvGo TCPToWebSocket]))
    as (rest & E & Hd & Ht & Hw & Hf & Ho).
  destruct (count_data rest Hd) as (C1 & C2 & C3).
  destruct (relay env sched ws_in tcp_in _) as [o tr'].
  cbn [fst snd] in *. subst tr'.
  destruct Ho as [->|(e & -> & _)].
  - exists ([EvGo WebSocketToTCP; EvGo TCPToWebSocket] ++ rest).
    cbn [fst snd]. rewrite tcpWrites_app, wsWrites_app, !count_app.
    cbn [tcpWrites wsWrites app]. rewrite C1, C2, C3.
    repeat split; auto.
    all: try (now rewrite <- !app_assoc).
  - exists (([EvGo WebSocketToTCP; EvGo TCPToWebSocket] ++ rest)
            ++ [EvTcpClose]).
    cbn [fst snd].
    rewrite !tcpWrites_app, !wsWrites_app, !count_app.
    cbn [tcpWrites wsWrites app]. rewrite !app_nil_r, C1, C3.
    repeat split; auto.
    all: try (now rewrite <- !app_assoc).
    right. exists e. split; [reflexivity|].
    exists ([EvGo WebSocketToTCP; EvGo TCPToWebSocket] ++ rest).
    split; [reflexivity|]. rewrite count_app, C2. reflexivity.
Qed.

Lemma afterDial_invariant (env : Env) (sched : list task)
  (ws_in : list ws_read) (tcp_in : list tcp_read) (message : list byte)
  (h : header) (tr : trace) :
  0 <= cursor h <= len message ->
  exists added,
    snd (afterDial env sched ws_in tcp_in message h tr) = tr ++ added
    /\ prefixOf (tcpWrites added)
         ((if len message >? cursor h then [initialPayload h message] else [])
          ++ wsPayloads ws_in)
    /\ prefixOf (List.concat (map snd (wsWrites added))) (tcpBytes tcp_in)
    /\ Forall (fun w => fst w = BinaryMessage /\ len (snd w) <= 4096)
         (wsWrites added)
    /\ count isDial added = 0%nat
    /\ count isWsClose added = 0%nat
    /\ ((fst (afterDial env sched ws_in tcp_in message h tr) = Blocked
         /\ count isTcpClose added = 0%nat)
        \/ (exists e,
               fst (afterDial env sched ws_in tcp_in message h tr)
               = Done (Error e)
               /\ exists mid, added = mid ++ [EvTcpClose]
                              /\ count isTcpClose mid = 0%nat)).
Proof.
  intros Hc. pose proof (initialPayload_nil h message Hc) as Hn.
  rewrite afterDial_cases by exact Hc.
  destruct (initialPayload h message) as [|b payload] eqn:Ep.
  - replace (len message >? cursor h) with false
      by (symmetry; rewrite Z.gtb_ltb; apply Z.ltb_ge;
          assert (cursor h = len message) by (now apply Hn); lia).
    apply started_invariant.
  - replace (len message >? cursor h) with true
      by (symmetry; rewrite Z.gtb_ltb; apply Z.ltb_lt;
          destruct (Z.eq_dec (cursor h) (len message)) as [E|E];
          [apply Hn in E; discriminate E | lia]).
    destruct (tcp_write_ok env tr (b :: payload)).
    + destruct (started_invariant env sched ws_in tcp_in
                  (tr ++ [EvTcpWrite (b :: payload)]))
        as (added & E & Ht & Hw & Hf & C1 & C3 & Ho).
      exists (EvTcpWrite (b :: payload) :: added).
      rewrite E, <- app_assoc.
      change (EvTcpWrite (b :: payload) :: added)
        with ([EvTcpWrite (b :: payload)] ++ added).
      rewrite tcpWrites_app, wsWrites_app, !count_app.
      cbn [tcpWrites wsWrites app count filter isDial isWsClose isTcpClose
           List.length Nat.add].
      fold (count isDial added). fold (count isWsClose added).
      repeat split; auto using prefixOf_cons.
      destruct Ho as [[Ho C2]|(e & Ho & mid & -> & C2)].
      * left. split; [exact Ho|]. exact C2.
      * right. exists e. split; [exact Ho|].
        exists (EvTcpWrite (b :: payload) :: mid). split; [reflexivity|].
        exact C2.
    + exists [EvTcpWrite (b :: payload); EvTcpClose].
      cbn [fst snd tcpWrites wsWrites map List.concat app].
      repeat split; auto using prefixOf_nil, prefixOf_cons.
      right. exists ErrWriteInitial. split; [reflexivity|].
      exists [EvTcpWrite (b :: payload)]. split; reflexivity.
Qed.

(** X8.  In a session whose header parsed, what is written to the
    target is, in order and unchanged, an initial part of: the
    initial payload, when there is one, followed by the messages the
    WebSocket delivers afterwards, one write for each; and what is
    written to the WebSocket is the acknowledgment followed by binary
    messages of at most 4096 bytes which, put end to end, are an
    initial part of the bytes the target delivered. *)
Theorem session_data_integrity (env : Env) (uuid : string) (sched : list task)
  (ws_in : list ws_read) (tcp_in : list tcp_read) (message : list byte)
  (tr : trace) (h : header) :
  parseHeader uuid message = Ok h ->
  exists added ws_rest,
    snd (handleProxyRequest env uuid sched ws_in tcp_in message tr)
    = tr ++ added
    /\ prefixOf (tcpWrites added)
         ((if len message >? cursor h then [initialPayload h message] else [])
          ++ wsPayloads ws_in)
    /\ wsWrites added = (BinaryMessage, [version h; x00]) :: ws_rest
    /\ prefixOf (List.concat (map snd ws_rest)) (tcpBytes tcp_in)
    /\ Forall (fun w => fst w = BinaryMessage /\ len (snd w) <= 4096) ws_rest.
Proof.
  intros Hp.
  rewrite (handleProxyRequest_parsed env uuid sched ws_in tcp_in message tr h Hp).
  destruct (ws_write_ok env _ _ _).
  - destruct (dial_ok env _ _ _).
    + destruct (afterDial_invariant env sched ws_in tcp_in message h
                  (tr ++ [logEvent h; ackEvent h; dialEvent h]))
        as (added & E & Ht & Hw & Hf & _).
      { apply parseHeader_cursor in Hp. lia. }
      exists ([logEvent h; ackEvent h; dialEvent h] ++ added),
        (wsWrites added).
      rewrite E, tcpWrites_app, wsWrites_app, <- app_assoc.
      repeat split; auto.
    + exists [logEvent h; ackEvent h; dialEvent h], [].
      cbn [snd tcpWrites wsWrites logEvent ackEvent dialEvent map List.concat].
      repeat split; auto using prefixOf_nil.
  - exists [logEvent h; ackEvent h], [].
    cbn [snd tcpWrites wsWrites logEvent ackEvent map List.concat].
    repeat split; auto using prefixOf_nil.
Qed.

Lemma session_data_integrity_witness :
  exists added ws_rest,
    snd (handleProxyRequest env_ok example_uuid
           [WebSocketToTCP; TCPToWebSocket]
           [WsMessage TextMessage [x42]] [TcpData [x43]] example_frame [])
    = [] ++ added
    /\ prefixOf (tcpWrites added)
         ((if len example_frame >? cursor example_header
           then [initialPayload example_header example_frame] else [])
          ++ wsPayloads [WsMessage TextMessage [x42]])
    /\ wsWrites added = (BinaryMessage, [version example_header; x00]) :: ws_rest
    /\ prefixOf (List.concat (map snd ws_rest)) (tcpBytes [TcpData [x43]])
    /\ Forall (fun w => fst w = BinaryMessage /\ len (snd w) <= 4096) ws_rest.
Proof.
  apply (session_data_integrity env_ok example_uuid
           [WebSocketToTCP; TCPToWebSocket]
           [WsMessage TextMessage [x42]] [TcpData [x43]] example_frame []
           example_header).
  reflexivity.
Defined.

(** ** The connection as a whole *)

Lemma handleProxyRequest_panicked (env : Env) (uuid : string)
  (sched : list task) (ws_in : list ws_read) (tcp_in : list tcp_read)
  (message : list byte) (tr : trace) :
  parseHeader uuid message = Panic ->
  handleProxyRequest env uuid sched ws_in tcp_in message tr = (Done Panic, tr).
Proof.
  intros H. unfold handleProxyRequest, bindM, lift. now rewrite H.
Qed.

(** Splits a conjunction and settles the counts over explicit events. *)
Ltac split_counts :=
  repeat match goal with |- _ /\ _ => split end;
  try reflexivity;
  try (cbv [count filter isDial isTcpClose isWsClose logEvent ackEvent
            dialEvent List.length]; lia);
  auto.

Lemma handleProxyRequest_shape (env : Env) (uuid : string)
  (sched : list task) (ws_in : list ws_read) (tcp_in : list tcp_read)
  (message : list byte) (tr : trace) :
  exists added,
    snd (handleProxyRequest env uuid sched ws_in tcp_in message tr)
    = tr ++ added
    /\ (count isDial added <= 1)%nat
    /\ (count isTcpClose added <= count isDial added)%nat
    /\ count isWsClose added = 0%nat
    /\ (fst (handleProxyRequest env uuid sched ws_in tcp_in message tr)
        = Blocked
        \/ (exists e,
               fst (handleProxyRequest env uuid sched ws_in tcp_in message tr)
               = Done (Error e))
        \/ (fst (handleProxyRequest env uuid sched ws_in tcp_in message tr)
            = Done Panic
            /\ parseHeader uuid message = Panic)).
Proof.
  destruct (parseHeader uuid message) as [h|e|] eqn:Hp.
  - rewrite (handleProxyRequest_parsed env uuid sched ws_in tcp_in message tr
               h Hp).
    destruct (ws_write_ok env _ _ _).
    + destruct (dial_ok env _ _ _).
      * destruct (afterDial_invariant env sched ws_in tcp_in message h
                    (tr ++ [logEvent h; ackEvent h; dialEvent h]))
          as (added & E & _ & _ & _ & C1 & C3 & Ho).
        { apply parseHeader_cursor in Hp. lia. }
        exists ([logEvent h; ackEvent h; dialEvent h] ++ added).
        rewrite E, <- app_assoc, !count_app, C1, C3.
        split; [reflexivity|].
        change (count isDial [logEvent h; ackEvent h; dialEvent h]) with 1%nat.
        change (count isTcpClose [logEvent h; ackEvent h; dialEvent h])
          with 0%nat.
        change (count isWsClose [logEvent h; ackEvent h; dialEvent h])
          with 0%nat.
        destruct Ho as [[Ho C2]|(e & Ho & mid & -> & C2)].
        -- rewrite C2. split_counts.
        -- rewrite count_app, C2. split_counts.
           right. left. now exists e.
      * exists [logEvent h; ackEvent h; dialEvent h].
        cbn [fst snd]. split_counts.
        right. left. now exists ErrConnectTarget.
    + exists [logEvent h; ackEvent h]. cbn [fst snd].
      split_counts.
      right. left. now exists ErrSendResponse.
  - rewrite (handleProxyRequest_rejected env uuid sched ws_in tcp_in message
               tr e Hp).
    exists []. cbn [fst snd]. rewrite app_nil_r.
    split_counts. right. left. now exists e.
  - rewrite (handleProxyRequest_panicked env uuid sched ws_in tcp_in message
               tr Hp).
    exists []. cbn [fst snd]. rewrite app_nil_r.
    split_counts.
Qed.

Lemma handleWebSocket_loop_shape (env : Env) (uuid : string)
  (sched : list task) (tcp_in : list tcp_read) (ws_in : list ws_read) :
  forall tr : trace,
  exists added,
    snd (handleWebSocket_loop env uuid sched tcp_in ws_in tr) = tr ++ added
    /\ (count isDial added <= 1)%nat
    /\ (count isTcpClose added <= count isDial added)%nat
    /\ count isWsClose added = 0%nat
    /\ (fst (handleWebSocket_loop env uuid sched tcp_in ws_in tr) = Blocked
        \/ fst (handleWebSocket_loop env uuid sched tcp_in ws_in tr)
           = Done (Ok tt)
        \/ (fst (handleWebSocket_loop env uuid sched tcp_in ws_in tr)
            = Done Panic
            /\ exists message, parseHeader uuid message = Panic)).
Proof.
  induction ws_in as [|[mt message|] rest IH]; intros tr.
  - exists []. cbn [handleWebSocket_loop blocked fst snd].
    rewrite app_nil_r. split_counts.
  - cbn [handleWebSocket_loop].
    destruct (negb (mt =? BinaryMessage)).
    + unfold bindM, emit.
      destruct (IH (tr ++ [EvLog LogNonBinary]))
        as (added & E & C1 & C2 & C3 & Ho).
      exists (EvLog LogNonBinary :: added).
      rewrite E, <- app_assoc.
      change (EvLog LogNonBinary :: added) with ([EvLog LogNonBinary] ++ added).
      rewrite !count_app.
      change (count isDial [EvLog LogNonBinary]) with 0%nat.
      change (count isTcpClose [EvLog LogNonBinary]) with 0%nat.
      change (count isWsClose [EvLog LogNonBinary]) with 0%nat.
      split_counts.
    + destruct (handleProxyRequest_shape env uuid sched rest tcp_in message tr)
        as (added & E & C1 & C2 & C3 & Ho).
      destruct (handleProxyRequest env uuid sched rest tcp_in message tr)
        as [[[v|e|]|] tr'] eqn:Eh; cbn [fst snd] in *; subst tr'.
      * destruct v.
      * exists (added ++ [EvLog (LogProxyError e)]).
        unfold emit. cbn [fst snd]. rewrite <- app_assoc, !count_app.
        change (count isDial [EvLog (LogProxyError e)]) with 0%nat.
        change (count isTcpClose [EvLog (LogProxyError e)]) with 0%nat.
        change (count isWsClose [EvLog (LogProxyError e)]) with 0%nat.
        rewrite !Nat.add_0_r. split_counts.
      * exists added. split_counts.
        right. right. split; [reflexivity|].
        destruct Ho as [Ho|[[e Ho]|[_ Ho]]]; try discriminate Ho.
        now exists message.
      * exists added. split_counts.
  - exists [EvLog LogReadError]. cbn [handleWebSocket_loop emit fst snd].
    unfold emit. cbn [fst snd]. split_counts.
Qed.

(** X9.  One connection, at most one dial.  In every run of the
    handler on an upgraded connection the trace begins with the line
    for the new connection; there is at most one dial and no closing
    of a TCP connection without one; while the handler waits the
    WebSocket is not closed; and when the handler returns, closing
    the WebSocket is the last thing it does, once. *)
Theorem connection_lifecycle (env : Env) (uuid : string) (sched : list task)
  (tcp_in : list tcp_read) (ws_in : list ws_read) (tr : trace) :
  exists added,
    snd (handleWebSocket env uuid true sched tcp_in ws_in tr)
    = tr ++ EvLog LogNewConnection :: added
    /\ (count isDial added <= 1)%nat
    /\ (count isTcpClose added <= count isDial added)%nat
    /\ (fst (handleWebSocket env uuid true sched tcp_in ws_in tr) = Blocked ->
        count isWsClose added = 0%nat)
    /\ (forall r,
          fst (handleWebSocket env uuid true sched tcp_in ws_in tr) = Done r ->
          exists mid, added = mid ++ [EvWsClose]
                      /\ count isWsClose mid = 0%nat).
Proof.
  unfold handleWebSocket. cbn [negb]. unfold defer, bindM, emit.
  destruct (handleWebSocket_loop_shape env uuid sched tcp_in ws_in
              (tr ++ [EvLog LogNewConnection]))
    as (added & E & C1 & C2 & C3 & _).
  destruct (handleWebSocket_loop env uuid sched tcp_in ws_in _)
    as [[r|] tr'] eqn:El; cbn [fst snd] in *; subst tr'.
  - exists (added ++ [EvWsClose]). rewrite <- !app_assoc, !count_app.
    change (count isDial [EvWsClose]) with 0%nat.
    change (count isTcpClose [EvWsClose]) with 0%nat.
    rewrite !Nat.add_0_r.
    split; [reflexivity|]. split; [exact C1|]. split; [exact C2|].
    split; [discriminate|]. intros r' _. now exists added.
  - exists added. rewrite <- app_assoc.
    split; [reflexivity|]. split; [exact C1|]. split; [exact C2|].
    split; [intros _; exact C3 | discriminate].
Qed.

(** X10.  With a configured string of at least 32 characters the
    handler never panics and never fails, whatever the client and the
    target send and however the calls turn out: a run either returns,
    the error that ended the session logged, or is waiting for
    input. *)
Theorem handler_never_panics (env : Env) (uuid : string) (upgrade_ok : bool)
  (sched : list task) (tcp_in : list tcp_read) (ws_in : list ws_read)
  (tr : trace) :
  (32 <= String.length uuid)%nat ->
  fst (handleWebSocket env uuid upgrade_ok sched tcp_in ws_in tr) = Done (Ok tt)
  \/ fst (handleWebSocket env uuid upgrade_ok sched tcp_in ws_in tr) = Blocked.
Proof.
  intros Hu. unfold handleWebSocket.
  destruct upgrade_ok; cbn [negb]; [|now left].
  unfold defer, bindM, emit.
  destruct (handleWebSocket_loop_shape env uuid sched tcp_in ws_in
              (tr ++ [EvLog LogNewConnection]))
    as (added & _ & _ & _ & _ & Ho).
  destruct (handleWebSocket_loop env uuid sched tcp_in ws_in _)
    as [o tr']; cbn [fst] in *.
  destruct Ho as [->|[->|[_ (m & Hm)]]]; auto.
  now apply parseHeader_no_panic in Hm.
Qed.

Lemma handler_never_panics_witness :
  fst (handleWebSocket env_ok example_uuid true [WebSocketToTCP] []
         [WsMessage BinaryMessage example_frame; WsReadError] [])
  = Done (Ok tt)
  \/ fst (handleWebSocket env_ok example_uuid true [WebSocketToTCP] []
            [WsMessage BinaryMessage example_frame; WsReadError] [])
     = Blocked.
Proof.
  apply (handler_never_panics env_ok example_uuid true [WebSocketToTCP] []
           [WsMessage BinaryMessage example_frame; WsReadError] []).
  apply Nat.leb_le. reflexivity.
Defined.

(** X11.  The TCP connection is closed exactly when the function that
    opened it returns.  After a successful dial the trace holds no
    closing of the TCP connection while the session is waiting, and
    when [handleProxyRequest] returns, with the error that ended the
    session, closing it is the last event, and the only closing. *)
Theorem tcp_connection_closed_on_return (env : Env) (uuid : string)
  (sched : list task) (ws_in : list ws_read) (tcp_in : list tcp_read)
  (message : list byte) (tr : trace) (h : header) :
  parseHeader uuid message = Ok h ->
  ws_write_ok env (tr ++ [logEvent h]) BinaryMessage [version h; x00] = true ->
  dial_ok env (tr ++ [logEvent h; ackEvent h]) "tcp" (dialAddress h) = true ->
  exists added,
    snd (handleProxyRequest env uuid sched ws_in tcp_in message tr)
    = tr ++ [logEvent h; ackEvent h; dialEvent h] ++ added
    /\ ((fst (handleProxyRequest env uuid sched ws_in tcp_in message tr)
         = Blocked
         /\ count isTcpClose added = 0%nat)
        \/ (exists e,
               fst (handleProxyRequest env uuid sched ws_in tcp_in message tr)
               = Done (Error e)
               /\ exists mid, added = mid ++ [EvTcpClose]
                              /\ count isTcpClose mid = 0%nat)).
Proof.
  intros Hp Hw Hd.
  rewrite (handleProxyRequest_parsed env uuid sched ws_in tcp_in message tr h Hp).
  rewrite Hw, Hd.
  destruct (afterDial_invariant env sched ws_in tcp_in message h
              (tr ++ [logEvent h; ackEvent h; dialEvent h]))
    as (added & E & _ & _ & _ & _ & _ & Ho).
  { apply parseHeader_cursor in Hp. lia. }
  exists added. rewrite E, <- app_assoc. split; [reflexivity | exact Ho].
Qed.

Lemma tcp_connection_closed_on_return_witness :
  exists added,
    snd (handleProxyRequest env_ok example_uuid [WebSocketToTCP]
           [WsReadError] [] example_frame [])
    = [] ++ [logEvent example_header; ackEvent example_header;
             dialEvent example_header] ++ added
    /\ ((fst (handleProxyRequest env_ok example_uuid [WebSocketToTCP]
                [WsReadError] [] example_frame [])
         = Blocked
         /\ count isTcpClose added = 0%nat)
        \/ (exists e,
               fst (handleProxyRequest env_ok example_uuid [WebSocketToTCP]
                      [WsReadError] [] example_frame [])
               = Done (Error e)
               /\ exists mid, added = mid ++ [EvTcpClose]
                              /\ count isTcpClose mid = 0%nat)).
Proof.
  apply (tcp_connection_closed_on_return env_ok example_uuid [WebSocketToTCP]
           [WsReadError] [] example_frame [] example_header);
    reflexivity.
Defined.

(** ** Clients without the identifier *)

Lemma parseHeader_unauthenticated (uuid : string) (m : list byte) :
  (32 <= String.length uuid)%nat ->
  firstn 16 (skipn 1 m) <> Identifier uuid ->
  parseHeader uuid m = Error ErrMessageTooShort
  \/ parseHeader uuid m = Error ErrInvalidUUID.
Proof.
  intros Hu Hne. unfold parseHeader.
  destruct (Z.ltb_spec (len m) 18); [now left|right].
  rewrite index_ok by lia. cbn [bind]. rewrite slice_ok by lia. cbn [bind].
  change (Z.to_nat (17 - 1)) with 16%nat. change (Z.to_nat 1) with 1%nat.
  rewrite validateUUID_Identifier;
    [|exact Hu|rewrite length_firstn, length_skipn; unfold len in *; lia].
  cbn [bind].
  destruct (bytes_eqb (firstn 16 (skipn 1 m)) (Identifier uuid)) eqn:E;
    [|reflexivity].
  apply bytes_eqb_eq in E. contradiction.
Qed.

Lemma handleWebSocket_loop_silent (env : Env) (uuid : string)
  (sched : list task) (tcp_in : list tcp_read) (ws_in : list ws_read) :
  (32 <= String.length uuid)%nat ->
  (forall m, firstBinary ws_in = Some m ->
             firstn 16 (skipn 1 m) <> Identifier uuid) ->
  forall tr : trace,
  exists added,
    snd (handleWebSocket_loop env uuid sched tcp_in ws_in tr) = tr ++ added
    /\ forallb isQuiet added = true.
Proof.
  intros Hu. induction ws_in as [|[mt message|] rest IH]; intros Hf tr.
  - exists []. cbn [handleWebSocket_loop blocked snd]. now rewrite app_nil_r.
  - cbn [handleWebSocket_loop]. cbn [firstBinary] in Hf.
    destruct (mt =? BinaryMessage); cbn [negb].
    + assert (Hne : firstn 16 (skipn 1 message) <> Identifier uuid)
        by now apply Hf.
      destruct (parseHeader_unauthenticated uuid message Hu Hne) as [E|E];
        rewrite (handleProxyRequest_rejected _ _ _ _ _ _ _ _ E);
        unfold emit; cbn [snd]; eexists; split; reflexivity.
    + unfold bindM, emit.
      destruct (IH Hf (tr ++ [EvLog LogNonBinary])) as (added & E & Hq).
      exists (EvLog LogNonBinary :: added). rewrite E, <- app_assoc.
      split; [reflexivity | exact Hq].
  - exists [EvLog LogReadError]. split; reflexivity.
Qed.

(** X12.  A client that does not present the identifier causes no
    traffic.  With a configured string of at least 32 characters, if
    the first binary message of a connection does not carry the
    identifier in bytes 1 to 16, the handler writes nothing to the
    WebSocket, dials nothing and writes nothing to any target: it
    only logs and closes the WebSocket. *)
Theorem unauthenticated_client_causes_no_traffic (env : Env) (uuid : string)
  (upgrade_ok : bool) (sched : list task) (tcp_in : list tcp_read)
  (ws_in : list ws_read) (tr : trace) :
  (32 <= String.length uuid)%nat ->
  (forall m, firstBinary ws_in = Some m ->
             firstn 16 (skipn 1 m) <> Identifier uuid) ->
  exists added,
    snd (handleWebSocket env uuid upgrade_ok sched tcp_in ws_in tr)
    = tr ++ added
    /\ forallb isQuiet added = true
    /\ wsWrites added = [] /\ tcpWrites added = []
    /\ count isDial added = 0%nat.
Proof.
  intros Hu Hf.
  assert (Hq : forall l, forallb isQuiet l = true ->
                         wsWrites l = [] /\ tcpWrites l = []
                         /\ count isDial l = 0%nat).
  { induction l as [|e l IHl]; [now repeat split|].
    cbn [forallb]. intros H. apply andb_true_iff in H. destruct H as [He Hl].
    destruct (IHl Hl) as (H1 & H2 & H3).
    destruct e; try discriminate He; unfold count in *;
      cbn [wsWrites tcpWrites filter isDial]; auto. }
  unfold handleWebSocket. destruct upgrade_ok; cbn [negb].
  - unfold defer, bindM, emit.
    destruct (handleWebSocket_loop_silent env uuid sched tcp_in ws_in Hu Hf
                (tr ++ [EvLog LogNewConnection])) as (added & E & Ha).
    destruct (handleWebSocket_loop env uuid sched tcp_in ws_in _)
      as [[r|] tr']; cbn [snd] in *; subst tr'.
    + exists (EvLog LogNewConnection :: added ++ [EvWsClose]).
      assert (Hall : forallb isQuiet
                       (EvLog LogNewConnection :: added ++ [EvWsClose]) = true)
        by (cbn [forallb isQuiet andb]; rewrite forallb_app, Ha; reflexivity).
      split; [now rewrite <- !app_assoc|]. split; [exact Hall|].
      now apply Hq.
    + exists (EvLog LogNewConnection :: added).
      assert (Hall : forallb isQuiet (EvLog LogNewConnection :: added) = true)
        by (cbn [forallb isQuiet andb]; exact Ha).
      split; [now rewrite <- !app_assoc|]. split; [exact Hall|].
      now apply Hq.
  - exists [EvLog LogUpgradeError]. unfold emit. cbn [snd].
    repeat split; reflexivity.
Qed.

Lemma unauthenticated_client_causes_no_traffic_witness :
  exists added,
    snd (handleWebSocket env_ok example_uuid true [WebSocketToTCP] []
           [WsMessage TextMessage [x42];
            WsMessage BinaryMessage (x00 :: x13 :: example_frame)] [])
    = [] ++ added
    /\ forallb isQuiet added = true
    /\ wsWrites added = [] /\ tcpWrites added = []
    /\ count isDial added = 0%nat.
Proof.
  apply (unauthenticated_client_causes_no_traffic env_ok example_uuid true
           [WebSocketToTCP] []
           [WsMessage TextMessage [x42];
            WsMessage BinaryMessage (x00 :: x13 :: example_frame)] []).
  - apply Nat.leb_le. reflexivity.
  - intros m Hm. injection Hm as <-. vm_compute. discriminate.
Defined.

(** ** Forwarding when every write succeeds *)

Lemma Read_small (data : list byte) (rest : list tcp_read) :
  len data <= 4096 ->
  Read (TcpData data :: rest) = Some (Some data, rest).
Proof.
  intros H. unfold Read.
  rewrite firstn_all2 by (unfold len in H; lia).
  rewrite skipn_all2 by (unfold len in H; lia). reflexivity.
Qed.

(** X13.  When every write succeeds, as many turns of a task as there
    are inputs forward them all, in order and unchanged: each
    WebSocket message, whatever its type, becomes one write to the
    target, and each piece of at most 4096 bytes from the target
    becomes one binary WebSocket message. *)
Theorem relay_forwards_each_input (env : Env) (sched : list task) :
  (forall (t : trace) (d : list byte), tcp_write_ok env t d = true) ->
  (forall (t : trace) (mt : Z) (d : list byte), ws_write_ok env t mt d = true) ->
  (forall (msgs : list (Z * list byte)) (ws_rest : list ws_read)
          (tcp_in : list tcp_read) (tr : trace),
      relay env (repeat WebSocketToTCP (List.length msgs) ++ sched)
        (map (fun m => WsMessage (fst m) (snd m)) msgs ++ ws_rest) tcp_in tr
      = relay env sched ws_rest tcp_in
          (tr ++ map (fun m => EvTcpWrite (snd m)) msgs))
  /\ (forall (chunks : list (list byte)) (tcp_rest : list tcp_read)
             (ws_in : list ws_read) (tr : trace),
        Forall (fun d => len d <= 4096) chunks ->
        relay env (repeat TCPToWebSocket (List.length chunks) ++ sched)
          ws_in (map TcpData chunks ++ tcp_rest) tr
        = relay env sched ws_in tcp_rest
            (tr ++ map (EvWsWrite BinaryMessage) chunks)).
Proof.
  intros Ht Hw. split.
  - induction msgs as [|[mt m] msgs IH]; intros ws_rest tcp_in tr.
    + cbn [List.length repeat map app]. now rewrite app_nil_r.
    + cbn [List.length repeat map app relay fst snd].
      unfold bindM, proxyWebSocketToTCP_step, Write. rewrite Ht.
      rewrite IH, <- app_assoc. reflexivity.
  - induction chunks as [|d chunks IH]; intros tcp_rest ws_in tr Hc.
    + cbn [List.length repeat map app]. now rewrite app_nil_r.
    + inversion Hc as [|? ? Hd Hc']; subst.
      cbn [List.length repeat map app relay].
      rewrite Read_small by exact Hd.
      unfold bindM, proxyTCPToWebSocket_step, WriteMessage. rewrite Hw.
      rewrite IH by exact Hc'. rewrite <- app_assoc. reflexivity.
Qed.

Lemma relay_forwards_each_input_witness :
  relay env_ok (repeat WebSocketToTCP 2 ++ [])
    (map (fun m => WsMessage (fst m) (snd m))
       [(TextMessage, [x41]); (BinaryMessage, [x42])] ++ []) [] []
  = relay env_ok [] [] []
      ([] ++ map (fun m => EvTcpWrite (snd m))
               [(TextMessage, [x41]); (BinaryMessage, [x42])]).
Proof.
  refine (proj1 (relay_forwards_each_input env_ok [] _ _)
            [(TextMessage, [x41]); (BinaryMessage, [x42])] [] [] []);
    reflexivity.
Defined.

(** ** Why a frame is refused *)

Lemma validateUUID_from_not_error (uuid : string) (id : list byte) (e : error) :
  forall i : Z, validateUUID_from uuid i id <> Error e.
Proof.
  induction id as [|v id IH]; intros i; [discriminate|].
  cbn [validateUUID_from]. unfold str_slice.
  destruct (_ && _); cbn [bind]; [|discriminate].
  destruct (Byte.eqb v _); [apply IH | discriminate].
Qed.

Lemma validateUUID_not_error (uuid : string) (id : list byte) (e : error) :
  validateUUID uuid id <> Error e.
Proof. apply validateUUID_from_not_error. Qed.

Lemma decodeAddress_error_inv (m : list byte) (a : byte) (i : Z) (e : error) :
  0 <= i <= len m ->
  decodeAddress m a i = Error e ->
  (e = ErrTooShortIPv4 /\ int a = 1 /\ len m < i + 4)
  \/ (e = ErrTooShortDomainLength /\ int a = 2 /\ len m < i + 1)
  \/ (e = ErrTooShortDomainName /\ int a = 2 /\ i + 1 <= len m
      /\ len m < i + 1 + int (nth (Z.to_nat i) m x00))
  \/ (e = ErrTooShortIPv6 /\ int a = 3 /\ len m < i + 16)
  \/ (e = ErrUnknownAddressType /\ int a <> 1 /\ int a <> 2 /\ int a <> 3).
Proof.
  intros Hi. unfold decodeAddress.
  destruct (int a) as [|[[p|p|]|[p|p|]|]|p];
    try (intros E; injection E as <-; do 4 right; repeat split; lia).
  - destruct (Z.ltb_spec (len m) (i + 16)).
    + intros E. injection E as <-. do 3 right. left. repeat split; lia.
    + rewrite slice_ok by lia. discriminate.
  - destruct (Z.ltb_spec (len m) (i + 1)).
    + intros E. injection E as <-. right. left. repeat split; lia.
    + rewrite index_ok by lia. cbn [bind].
      pose proof (int_range (nth (Z.to_nat i) m x00)).
      destruct (Z.ltb_spec (len m) (i + 1 + int (nth (Z.to_nat i) m x00))).
      * intros E. injection E as <-. do 2 right. left. repeat split; lia.
      * rewrite slice_ok by lia. discriminate.
  - destruct (Z.ltb_spec (len m) (i + 4)).
    + intros E. injection E as <-. left. repeat split; lia.
    + rewrite slice_ok by lia. discriminate.
Qed.

(** X14.  Every error of the parser tells why the frame was refused:
    "message too short" for a frame below 18 bytes or, once the
    identifier is accepted, below [22 + N]; "invalid UUID" for a
    frame of at least 18 bytes whose identifier the comparison
    rejects; the four errors of the address for a known type with too
    few bytes after it; "unknown address type" for a type other than
    1, 2 and 3.  The parser returns no other error. *)
Theorem parser_error_table (uuid : string) (message : list byte) (e : error) :
  parseHeader uuid message = Error e ->
  (e = ErrMessageTooShort /\ len message < 18)
  \/ (e = ErrInvalidUUID /\ 18 <= len message
      /\ validateUUID uuid (firstn 16 (skipn 1 message)) = Ok false)
  \/ (18 <= len message
      /\ validateUUID uuid (firstn 16 (skipn 1 message)) = Ok true
      /\ ((e = ErrMessageTooShort /\ len message < 22 + addonLength message)
          \/ (22 + addonLength message <= len message
              /\ ((e = ErrTooShortIPv4
                   /\ int (nth (Z.to_nat (21 + addonLength message)) message x00) = 1
                   /\ len message < 26 + addonLength message)
                  \/ (e = ErrTooShortDomainLength
                      /\ int (nth (Z.to_nat (21 + addonLength message)) message x00) = 2
                      /\ len message < 23 + addonLength message)
                  \/ (e = ErrTooShortDomainName
                      /\ int (nth (Z.to_nat (21 + addonLength message)) message x00) = 2
                      /\ len message
                         < 23 + addonLength message
                           + int (nth (Z.to_nat (22 + addonLength message))
                                    message x00))
                  \/ (e = ErrTooShortIPv6
                      /\ int (nth (Z.to_nat (21 + addonLength message)) message x00) = 3
                      /\ len message < 38 + addonLength message)
                  \/ (e = ErrUnknownAddressType
                      /\ int (nth (Z.to_nat (21 + addonLength message)) message x00) <> 1
                      /\ int (nth (Z.to_nat (21 + addonLength message)) message x00) <> 2
                      /\ int (nth (Z.to_nat (21 + addonLength message)) message x00) <> 3))))).
Proof.
  intros H.
  destruct (Z.lt_ge_cases (len message) 18) as [Hs|H18].
  { left. unfold parseHeader in H. revert H. decide_ltb.
    intros H. injection H as <-. auto. }
  right.
  destruct (validateUUID uuid (firstn 16 (skipn 1 message))) as [[|]| |] eqn:Hv.
  - right. split; [exact H18|]. split; [reflexivity|].
    rewrite (parseHeader_authenticated uuid message H18 Hv) in H.
    pose proof (int_range (nth 17 message x00)) as HN.
    fold (addonLength message) in HN.
    destruct (Z.lt_ge_cases (len message) (22 + addonLength message))
      as [Hlt|Hge].
    + rewrite readPortAndType_short in H by assumption.
      injection H as <-. left. auto.
    + right. split; [exact Hge|].
      rewrite readPortAndType_ok in H by assumption. cbn [bind] in H.
      destruct (decodeAddress message _ _) as [[hst i]| |] eqn:Ed;
        cbn [bind] in H; try discriminate H.
      injection H as ->.
      apply decodeAddress_error_inv in Ed; [|lia].
      destruct Ed as [(-> & Ha & Hl)|[(-> & Ha & Hl)|[(-> & Ha & Hl & Hl')
                     |[(-> & Ha & Hl)|(-> & Ha)]]]].
      * left. repeat split; auto; lia.
      * right. left. repeat split; auto; lia.
      * right. right. left. repeat split; auto; lia.
      * do 3 right. left. repeat split; auto; lia.
      * do 4 right. tauto.
  - left. split; [|split; [exact H18|reflexivity]].
    unfold parseHeader in H. revert H. decide_ltb.
    rewrite index_ok by lia. cbn [bind]. rewrite slice_ok by lia. cbn [bind].
    change (Z.to_nat (17 - 1)) with 16%nat. change (Z.to_nat 1) with 1%nat.
    rewrite Hv. cbn [bind negb]. intros H. now injection H as <-.
  - exfalso. unfold parseHeader in H. revert H. decide_ltb.
    rewrite index_ok by lia. cbn [bind]. rewrite slice_ok by lia. cbn [bind].
    change (Z.to_nat (17 - 1)) with 16%nat. change (Z.to_nat 1) with 1%nat.
    intros _. exact (validateUUID_not_error _ _ _ Hv).
  - exfalso. unfold parseHeader in H. revert H. decide_ltb.
    rewrite index_ok by lia. cbn [bind]. rewrite slice_ok by lia. cbn [bind].
    change (Z.to_nat (17 - 1)) with 16%nat. change (Z.to_nat 1) with 1%nat.
    rewrite Hv. cbn [bind]. discriminate.
Qed.

Lemma parser_error_table_witness :
  validateUUID example_uuid (firstn 16 (skipn 1 (x00 :: x13 :: example_frame)))
  = Ok false.
Proof.
  destruct (parser_error_table example_uuid (x00 :: x13 :: example_frame)
              ErrInvalidUUID eq_refl)
    as [[E _]|[(_ & _ & Hv)|(_ & Hv & _)]].
  - discriminate E.
  - exact Hv.
  - discriminate Hv.
Defined.
